(** * Job-Application-Tracker: the backend stores and the spreadsheet mirror

    A shallow embedding of the backend module (registration and login,
    profile storage, job applications, Google Sheets mirror), of the views
    of the request layer and of the reset script, as functions over an
    explicit world state, in a state-and-exception monad.

    Conventions of the embedding:
    - a Python [str] is a [string]; its characters stand for code points;
    - a [dict] with string keys is a [gmap string _];
    - an SQLite table is a finite map from rowid to row together with the
      AUTOINCREMENT counter kept in [sqlite_sequence];
    - the worksheet is the list of its rows, a row the list of its cells;
    - the third-party functions (validators, bcrypt, datetime) are the
      members of the class [Libraries];
    - what the outer world decides (clock readings, salts, transport
      failures) is read from the world state. *)

From stdpp Require Import gmap strings list fin_maps sorting pretty.

Local Open Scope Z_scope.

(** ** Third-party functions *)

Class Libraries := {
  (** [validators.email], read as a truth value *)
  validators_email : string → bool;
  (** [bcrypt.hashpw password salt] *)
  bcrypt_hashpw : string → string → string;
  (** [bcrypt.checkpw password hashed] *)
  bcrypt_checkpw : string → string → bool;
  (** [datetime.isoformat], a datetime being its count of microseconds *)
  isoformat : Z → string;
  (** [datetime.fromisoformat]; [None] stands for its ValueError *)
  fromisoformat : string → option Z;
}.

(** ** Strings *)

(** [str.isspace] on one character. *)
Definition is_space (c : Ascii.ascii) : bool :=
  let n := Z.of_nat (Ascii.nat_of_ascii c) in
  ((9 <=? n) && (n <=? 13)) || ((28 <=? n) && (n <=? 32))
  || (n =? 133) || (n =? 160).

Fixpoint lstrip (s : string) : string :=
  match s with
  | String c s' => if is_space c then lstrip s' else s
  | EmptyString => EmptyString
  end.

Fixpoint rstrip (s : string) : string :=
  match s with
  | String c s' =>
      match rstrip s' with
      | EmptyString => if is_space c then EmptyString else String c EmptyString
      | t => String c t
      end
  | EmptyString => EmptyString
  end.

(** [str.strip()] *)
Definition strip (s : string) : string := rstrip (lstrip s).

Definition len (s : string) : Z := Z.of_nat (String.length s).

(** ** Values, rows and tables *)

(** The values the request layer puts into a profile dict. *)
Inductive value :=
  | VStr (s : string)
  | VInt (n : Z).

Global Instance value_eq_dec : EqDecision value.
Proof. solve_decision. Defined.

Record UserRow := {
  email : string;
  password_hash : string;
  user_created_at : string;
}.

Record ProfileRow := {
  profile_user_email : value;
  first_name : value;
  last_name : value;
  address : value;
  city : value;
  mobile_number : value;
  github_url : value;
  job_position : value;
  experience_months : value;
  skills : value;
  preferred_locations : value;
  profile_created_at : string;
}.

Record JobRow := {
  user_email : string;
  job_link : string;
  company_name : string;
  job_role : string;
  job_location : string;
  status : string;
  recruiter_name : string;
  recruiter_email : string;
  recruiter_phone : string;
  comments : string;
  created_at : string;
}.

(** A table with INTEGER PRIMARY KEY AUTOINCREMENT: the rows by rowid, and
    the largest rowid ever handed out. *)
Record Table (R : Type) := {
  rows : gmap Z R;
  seq : Z;
}.
Arguments rows {R} _.
Arguments seq {R} _.

Definition empty_table {R} : Table R := {| rows := ∅; seq := 0 |}.

Definition max_rowid {R} (m : gmap Z R) : Z :=
  map_fold (λ k _ acc, Z.max k acc) 0 m.

Definition next_rowid {R} (t : Table R) : Z :=
  Z.max (max_rowid (rows t)) (seq t) + 1.

(** INSERT INTO t ... VALUES r *)
Definition insert_row {R} (r : R) (t : Table R) : Table R :=
  let i := next_rowid t in {| rows := <[i := r]> (rows t); seq := i |}.

(** UPDATE t SET ... WHERE id = i *)
Definition update_by_id {R} (f : R → R) (i : Z) (t : Table R) : Table R :=
  {| rows := alter f i (rows t); seq := seq t |}.

(** DELETE FROM t WHERE id = i *)
Definition delete_by_id {R} (i : Z) (t : Table R) : Table R :=
  {| rows := delete i (rows t); seq := seq t |}.

Definition id_le {R} (a b : Z * R) : Prop := a.1 ≤ b.1.
Definition id_ge {R} (a b : Z * R) : Prop := b.1 ≤ a.1.

Global Instance id_le_dec {R} (a b : Z * R) : Decision (id_le a b).
Proof. unfold id_le. apply _. Defined.
Global Instance id_ge_dec {R} (a b : Z * R) : Decision (id_ge a b).
Proof. unfold id_ge. apply _. Defined.

(** The rows of a table as a scan meets them, by ascending rowid. *)
Definition scan {R} (t : Table R) : list (Z * R) :=
  merge_sort id_le (map_to_list (rows t)).

(** SELECT ... FROM t WHERE P *)
Definition select_where {R} (P : R → bool) (t : Table R) : list (Z * R) :=
  filter (λ kr, P kr.2 = true) (scan t).

(** ... ORDER BY id DESC *)
Definition order_by_id_desc {R} (l : list (Z * R)) : list (Z * R) :=
  merge_sort id_ge l.

(** [cursor.fetchone()] *)
Definition fetchone {A} (l : list A) : option A := head l.

(** ** The world *)

Record World := {
  users : Table UserRow;
  user_profiles : Table ProfileRow;
  job_applications : Table JobRow;
  (** the worksheet [sheet1] of the spreadsheet *)
  sheet : list (list string);
  (** the readings [datetime.utcnow()] will give, then the last one again *)
  clock : list Z;
  now : Z;
  (** the salts [bcrypt.gensalt()] will give *)
  salts : list string;
  (** what the next calls of the spreadsheet transport do: [Some msg] is a
      call that raises with message [msg], [None] one that goes through *)
  faults : list (option string);
  (** the lines printed *)
  stdout : list string;
}.

Definition set_users (f : Table UserRow → Table UserRow) (w : World) : World :=
  {| users := f (users w); user_profiles := user_profiles w;
     job_applications := job_applications w; sheet := sheet w;
     clock := clock w; now := now w; salts := salts w; faults := faults w;
     stdout := stdout w |}.

Definition set_user_profiles (f : Table ProfileRow → Table ProfileRow)
    (w : World) : World :=
  {| users := users w; user_profiles := f (user_profiles w);
     job_applications := job_applications w; sheet := sheet w;
     clock := clock w; now := now w; salts := salts w; faults := faults w;
     stdout := stdout w |}.

Definition set_job_applications (f : Table JobRow → Table JobRow)
    (w : World) : World :=
  {| users := users w; user_profiles := user_profiles w;
     job_applications := f (job_applications w); sheet := sheet w;
     clock := clock w; now := now w; salts := salts w; faults := faults w;
     stdout := stdout w |}.

Definition set_sheet (f : list (list string) → list (list string))
    (w : World) : World :=
  {| users := users w; user_profiles := user_profiles w;
     job_applications := job_applications w; sheet := f (sheet w);
     clock := clock w; now := now w; salts := salts w; faults := faults w;
     stdout := stdout w |}.

Definition set_clock (c : list Z) (n : Z) (w : World) : World :=
  {| users := users w; user_profiles := user_profiles w;
     job_applications := job_applications w; sheet := sheet w;
     clock := c; now := n; salts := salts w; faults := faults w;
     stdout := stdout w |}.

Definition set_salts (s : list string) (w : World) : World :=
  {| users := users w; user_profiles := user_profiles w;
     job_applications := job_applications w; sheet := sheet w;
     clock := clock w; now := now w; salts := s; faults := faults w;
     stdout := stdout w |}.

Definition set_faults (f : list (option string)) (w : World) : World :=
  {| users := users w; user_profiles := user_profiles w;
     job_applications := job_applications w; sheet := sheet w;
     clock := clock w; now := now w; salts := salts w; faults := f;
     stdout := stdout w |}.

Definition set_stdout (f : list string → list string) (w : World) : World :=
  {| users := users w; user_profiles := user_profiles w;
     job_applications := job_applications w; sheet := sheet w;
     clock := clock w; now := now w; salts := salts w; faults := faults w;
     stdout := f (stdout w) |}.

(** ** Exceptions and the monad of backend code *)

Inductive exn :=
  | KeyError (key : string)
  | ValueError (msg : string)
  | IntegrityError (msg : string)
  | TransportError (msg : string).

(** [str(e)] *)
Definition exn_str (e : exn) : string :=
  match e with
  | KeyError k => "'" +:+ k +:+ "'"
  | ValueError m | IntegrityError m | TransportError m => m
  end.

Inductive outcome (A : Type) :=
  | Return (a : A)
  | Raise (e : exn).
Arguments Return {A} _.
Arguments Raise {A} _.

Definition M (A : Type) : Type := World → outcome A * World.

Global Instance M_ret : MRet M := λ A a w, (Return a, w).
Global Instance M_bind : MBind M := λ A B f m w,
  match m w with
  | (Return a, w') => f a w'
  | (Raise e, w') => (Raise e, w')
  end.

Definition raise {A} (e : exn) : M A := λ w, (Raise e, w).
Definition get {A} (f : World → A) : M A := λ w, (Return (f w), w).
Definition modify (f : World → World) : M unit := λ w, (Return tt, f w).

(** What a computation gives, and the world it leaves. *)
Definition run {A} (m : M A) (w : World) : outcome A := (m w).1.
Definition exec {A} (m : M A) (w : World) : World := (m w).2.

(** [try: m  except Exception as e: h e] *)
Definition try_except {A} (m : M A) (h : exn → M A) : M A := λ w,
  match m w with
  | (Return a, w') => (Return a, w')
  | (Raise e, w') => h e w'
  end.

(** [try: m  except sqlite3.IntegrityError: h] *)
Definition try_except_IntegrityError {A} (m : M A) (h : M A) : M A := λ w,
  match m w with
  | (Raise (IntegrityError _), w') => h w'
  | r => r
  end.

(** [print(a, b)] *)
Definition print (line : string) : M unit :=
  modify (set_stdout (λ out, out ++ [line])).

(** [datetime.utcnow()] *)
Definition utcnow : M Z := λ w,
  match clock w with
  | t :: c => (Return t, set_clock c t w)
  | [] => (Return (now w), w)
  end.

(** [bcrypt.gensalt()] *)
Definition gensalt : M string := λ w,
  match salts w with
  | s :: ss => (Return s, set_salts ss w)
  | [] => (Return ""%string, w)
  end.

(** [d[k]] *)
Definition getitem {V} (d : gmap string V) (k : string) : M V :=
  match d !! k with
  | Some v => mret v
  | None => raise (KeyError k)
  end.

(** ** The spreadsheet transport (gspread) *)

(** One call of the transport: it goes through, or it raises. *)
Definition transport : M unit := λ w,
  match faults w with
  | Some msg :: fs => (Raise (TransportError msg), set_faults fs w)
  | None :: fs => (Return tt, set_faults fs w)
  | [] => (Return tt, w)
  end.

(** [Credentials.from_service_account_file(...)], [gspread.authorize(creds)]
    and [client.open_by_key(SHEET_ID).sheet1] *)
Definition open_sheet1 : M unit := transport;; transport;; transport.

(** [sheet.get_all_values()] *)
Definition sheet_get_all_values : M (list (list string)) :=
  transport;; get sheet.

(** [sheet.append_row(row)] *)
Definition sheet_append_row (row : list string) : M unit :=
  transport;; modify (set_sheet (λ s, s ++ [row])).

(** [sheet.clear()] *)
Definition sheet_clear : M unit :=
  transport;; modify (set_sheet (λ _, [])).

(** [sheet.delete_rows(row_idx)], rows counted from 1 *)
Definition sheet_delete_rows (row_idx : nat) : M unit :=
  transport;; modify (set_sheet (delete (row_idx - 1)%nat)).

(** [for x in l: body x] *)
Fixpoint for_each {A} (l : list A) (body : A → M unit) : M unit :=
  match l with
  | [] => mret tt
  | x :: l' => body x;; for_each l' body
  end.

(** ** Dicts *)

(** [data.get(k, "")] *)
Definition get_str (data : gmap string string) (k : string) : string :=
  default "" (data !! k).

(** [data.get(k, d)] on a profile dict *)
Definition get_val (data : gmap string value) (k : string) (d : value) : value :=
  default d (data !! k).

Definition headers : list string :=
  [ "User Email"; "Job Link"; "Company Name"; "Job Role"; "Job Location";
    "Status"; "Recruiter Name"; "Recruiter Email"; "Recruiter Phone";
    "Days Since Created"; "Comments"; "Created At" ].

(** [len(first_row) < len(headers) or
     any(h1.strip() != h2.strip() for h1, h2 in zip(first_row, headers))] *)
Definition header_mismatch (first_row : list string) : bool :=
  (Z.of_nat (length first_row) <? Z.of_nat (length headers))
  || existsb (λ hh, bool_decide (strip hh.1 ≠ strip hh.2))
       (zip first_row headers).

(** [headers.index(name) + 1 if name in headers else None] *)
Fixpoint index_of (name : string) (hs : list string) : option nat :=
  match hs with
  | [] => None
  | h :: hs' =>
      if bool_decide (h = name) then Some 0%nat else S <$> index_of name hs'
  end.

Definition column_of (name : string) (hs : list string) : option nat :=
  S <$> index_of name hs.

(** The test of the scan loop of the mirror delete on one row. *)
Definition row_matches (user_email_col job_link_col : nat)
    (u_email link : string) (row : list string) : bool :=
  (Nat.max user_email_col job_link_col <=? length row)%nat
  && bool_decide (nth (user_email_col - 1) row "" = u_email)
  && bool_decide (nth (job_link_col - 1) row "" = link).

(** [for i, row in enumerate(rows, start=i)], collecting the indices *)
Fixpoint collect_rows (user_email_col job_link_col : nat)
    (u_email link : string) (i : nat) (rs : list (list string)) : list nat :=
  match rs with
  | [] => []
  | row :: rs' =>
      if row_matches user_email_col job_link_col u_email link row
      then i :: collect_rows user_email_col job_link_col u_email link (S i) rs'
      else collect_rows user_email_col job_link_col u_email link (S i) rs'
  end.

Definition nat_ge (a b : nat) : Prop := (b ≤ a)%nat.

Global Instance nat_ge_dec (a b : nat) : Decision (nat_ge a b).
Proof. unfold nat_ge. apply _. Defined.

(** [sorted(l, reverse=True)] *)
Definition sorted_reverse (l : list nat) : list nat :=
  merge_sort nat_ge l.

(** The dict a row of job_applications is listed as. *)
Definition job_dict (i : Z) (r : JobRow) : gmap string value :=
  list_to_map
    [ ("id", VInt i); ("job_link", VStr (job_link r));
      ("company_name", VStr (company_name r)); ("job_role", VStr (job_role r));
      ("job_location", VStr (job_location r)); ("status", VStr (status r));
      ("recruiter_name", VStr (recruiter_name r));
      ("recruiter_email", VStr (recruiter_email r));
      ("recruiter_phone", VStr (recruiter_phone r));
      ("comments", VStr (comments r)); ("created_at", VStr (created_at r)) ].

(** The dict a row of user_profiles is read as. *)
Definition profile_dict (r : ProfileRow) : gmap string value :=
  list_to_map
    [ ("first_name", first_name r); ("last_name", last_name r);
      ("address", address r); ("city", city r);
      ("mobile_number", mobile_number r); ("github_url", github_url r);
      ("job_position", job_position r);
      ("experience_months", experience_months r); ("skills", skills r);
      ("preferred_locations", preferred_locations r) ].

(** The SET clause of [update_profile]. *)
Definition set_profile_fields (data : gmap string value) (r : ProfileRow)
    : ProfileRow :=
  {| profile_user_email := profile_user_email r;
     first_name := get_val data "first_name" (VStr "");
     last_name := get_val data "last_name" (VStr "");
     address := get_val data "address" (VStr "");
     city := get_val data "city" (VStr "");
     mobile_number := get_val data "mobile_number" (VStr "");
     github_url := get_val data "github_url" (VStr "");
     job_position := get_val data "job_position" (VStr "");
     experience_months := get_val data "experience_months" (VInt 0);
     skills := get_val data "skills" (VStr "");
     preferred_locations := get_val data "preferred_locations" (VStr "");
     profile_created_at := profile_created_at r |}.

(** The SET clause of [update_job_application]. *)
Definition set_job_fields (data : gmap string string) (r : JobRow) : JobRow :=
  {| user_email := user_email r;
     job_link := get_str data "job_link";
     company_name := get_str data "company_name";
     job_role := get_str data "job_role";
     job_location := get_str data "job_location";
     status := get_str data "status";
     recruiter_name := get_str data "recruiter_name";
     recruiter_email := get_str data "recruiter_email";
     recruiter_phone := get_str data "recruiter_phone";
     comments := get_str data "comments";
     created_at := created_at r |}.

(** The id the subquery
    [SELECT id FROM user_profiles WHERE user_email = ? ORDER BY id DESC LIMIT 1]
    gives, and the row with it. *)
Definition latest_profile (u_email : string) (t : Table ProfileRow)
    : option (Z * ProfileRow) :=
  fetchone (order_by_id_desc
    (select_where (λ r, bool_decide (profile_user_email r = VStr u_email)) t)).

(** ** The backend *)

Section Backend.
Context `{!Libraries}.

(** [init_db]: drops the three tables and creates them again, empty. *)
Definition init_db : M unit :=
  modify (set_job_applications (λ _, empty_table));;
  modify (set_user_profiles (λ _, empty_table));;
  modify (set_users (λ _, empty_table)).

(** INSERT INTO users: the column email is UNIQUE. *)
Definition insert_user (r : UserRow) : M unit := λ w,
  match fetchone (select_where (λ r', bool_decide (email r' = email r))
                    (users w)) with
  | Some _ => (Raise (IntegrityError "UNIQUE constraint failed: users.email"), w)
  | None => modify (set_users (insert_row r)) w
  end.

Definition register_user (em password : string) : M string :=
  if negb (validators_email em) then mret "Invalid email format."
  else if len password <? 8 then
    mret "Password must be at least 8 characters."
  else
    salt ← gensalt;
    let hashed := bcrypt_hashpw password salt in
    try_except_IntegrityError
      (t ← utcnow;
       insert_user {| email := em; password_hash := hashed;
                      user_created_at := isoformat t |};;
       mret "Registration successful!")
      (mret "Email already registered.").

Definition login_user (em password : string) : M string :=
  user ← get (λ w, fetchone
    (select_where (λ r, bool_decide (email r = em)) (users w)));
  match user with
  | None => mret "No account found with that email."
  | Some (_, r) =>
      if bcrypt_checkpw password (password_hash r)
      then mret "Login successful!"
      else mret "Incorrect password."
  end.

Definition save_profile (data : gmap string value) : M string :=
  u ← getitem data "user_email";
  t ← utcnow;
  modify (set_user_profiles (insert_row
    {| profile_user_email := u;
       first_name := get_val data "first_name" (VStr "");
       last_name := get_val data "last_name" (VStr "");
       address := get_val data "address" (VStr "");
       city := get_val data "city" (VStr "");
       mobile_number := get_val data "mobile_number" (VStr "");
       github_url := get_val data "github_url" (VStr "");
       job_position := get_val data "job_position" (VStr "");
       experience_months := get_val data "experience_months" (VInt 0);
       skills := get_val data "skills" (VStr "");
       preferred_locations := get_val data "preferred_locations" (VStr "");
       profile_created_at := isoformat t |}));;
  mret "Profile saved locally.".

(** The empty dict stands for no profile. *)
Definition get_profile (u_email : string) : M (gmap string value) :=
  row ← get (λ w, latest_profile u_email (user_profiles w));
  match row with
  | Some (_, r) => mret (profile_dict r)
  | None => mret ∅
  end.

Definition update_profile (u_email : string) (data : gmap string value)
    : M string :=
  modify (set_user_profiles (λ t,
    match latest_profile u_email t with
    | Some (i, _) => update_by_id (set_profile_fields data) i t
    | None => t
    end));;
  mret "Profile updated locally.".

Definition job_exists_for_user (u_email link : string) : M bool :=
  row ← get (λ w, fetchone
    (select_where (λ r, bool_decide (user_email r = u_email)
                        && bool_decide (job_link r = link))
       (job_applications w)));
  mret (bool_decide (row ≠ None)).

(** The row [save_job_application] inserts. *)
Definition job_row_of (u_email : string) (data : gmap string string)
    (now_iso : string) : JobRow :=
  {| user_email := u_email;
     job_link := get_str data "job_link";
     company_name := get_str data "company_name";
     job_role := get_str data "job_role";
     job_location := get_str data "job_location";
     status := get_str data "status";
     recruiter_name := get_str data "recruiter_name";
     recruiter_email := get_str data "recruiter_email";
     recruiter_phone := get_str data "recruiter_phone";
     comments := get_str data "comments";
     created_at := now_iso |}.

Definition append_job_to_google_sheets (data : gmap string string)
    (created_iso : string) : M string :=
  try_except
    (open_sheet1;;
     all_values ← sheet_get_all_values;
     match all_values with
     | [] => sheet_append_row headers
     | first_row :: _ =>
         if header_mismatch first_row
         then sheet_clear;; sheet_append_row headers
         else mret tt
     end;;
     created_dt ← match fromisoformat created_iso with
                  | Some t => mret t
                  | None => raise (ValueError
                      ("Invalid isoformat string: '" +:+ created_iso +:+ "'"))
                  end;
     t ← utcnow;
     let days_since := (t - created_dt) `div` 86400000000 in
     sheet_append_row
       [ get_str data "user_email"; get_str data "job_link";
         get_str data "company_name"; get_str data "job_role";
         get_str data "job_location"; get_str data "status";
         get_str data "recruiter_name"; get_str data "recruiter_email";
         get_str data "recruiter_phone"; pretty days_since;
         get_str data "comments"; created_iso ];;
     mret "Job appended to Google Sheets.")
    (λ e,
       print ("Google Sheets error: " +:+ exn_str e);;
       mret ("Failed to append job to Google Sheets: " +:+ exn_str e)).

(** [save_job_application] as the module defines it last (lines 678-706):
    the definition the name is bound to once the module is loaded. *)
Definition save_job_application (data : gmap string string) : M string :=
  t ← utcnow;
  let now_iso := isoformat t in
  u ← getitem data "user_email";
  modify (set_job_applications (insert_row (job_row_of u data now_iso)));;
  gs_msg ← append_job_to_google_sheets data now_iso;
  print ("Google Sheets: " +:+ gs_msg);;
  mret "Job application saved successfully!".

(** [save_job_application] as the module defines it first (lines 234-269),
    before the name is bound again: the duplicate test, then the same
    statements. *)
Definition save_job_application_guarded (data : gmap string string)
    : M string :=
  u ← getitem data "user_email";
  link ← getitem data "job_link";
  dup ← job_exists_for_user u link;
  if (dup : bool) then mret "Duplicate job link for this user. Record not added."
  else save_job_application data.

Definition get_user_applications (u_email : string)
    : M (list (gmap string value)) :=
  rs ← get (λ w, order_by_id_desc
    (select_where (λ r, bool_decide (user_email r = u_email))
       (job_applications w)));
  mret ((λ ir, job_dict ir.1 ir.2) <$> rs).

Definition update_job_application (job_id : Z) (data : gmap string string)
    : M string :=
  modify (set_job_applications (update_by_id (set_job_fields data) job_id));;
  mret "Job updated locally.".

Definition delete_job_from_google_sheets (u_email link : string) : M string :=
  try_except
    (open_sheet1;;
     data ← sheet_get_all_values;
     match data with
     | [] => mret "No rows to delete in Google Sheet."
     | _ :: [] => mret "No rows to delete in Google Sheet."
     | hs :: data_rows =>
         match column_of "User Email" hs, column_of "Job Link" hs with
         | Some user_email_col, Some job_link_col =>
             let rows_to_delete :=
               collect_rows user_email_col job_link_col u_email link 2
                 data_rows in
             match rows_to_delete with
             | [] => mret "No matching row found in Google Sheet."
             | _ =>
                 for_each (sorted_reverse rows_to_delete) sheet_delete_rows;;
                 mret "Deleted from Google Sheet."
             end
         | _, _ => mret "Required columns not found in Google Sheet."
         end
     end)
    (λ e,
       print ("Error deleting job from Google Sheets: " +:+ exn_str e);;
       mret ("Failed to delete from Google Sheets: " +:+ exn_str e)).

Definition delete_job_application_by_id (job_id : Z) : M string :=
  row ← get (λ w, rows (job_applications w) !! job_id);
  match row with
  | None => mret "No such job record found."
  | Some r =>
      let link := job_link r in
      let u_email := user_email r in
      modify (set_job_applications (delete_by_id job_id));;
      sheet_msg ← delete_job_from_google_sheets u_email link;
      print ("Google Sheets: " +:+ sheet_msg);;
      mret ("Job application deleted successfully (" +:+ sheet_msg +:+ ")")
  end.

Definition clear_google_sheet_rows : M unit :=
  try_except
    (open_sheet1;;
     sheet_clear;;
     sheet_append_row headers;;
     print "Google Sheet cleared and headers re-added.")
    (λ e, print ("Error clearing Google Sheet: " +:+ exn_str e);; raise e).

End Backend.

(** ** The reset script (clear_users.py) *)

Section ClearUsers.
Context `{!Libraries}.

Definition clear_users_main : M unit :=
  init_db;;
  print "Database fully cleared and reinitialized.";;
  try_except
    (clear_google_sheet_rows;;
     print "Google Sheet cleared and headers re-added.")
    (λ e, print ("Failed to clear Google Sheet: " +:+ exn_str e)).

End ClearUsers.

(** ** The request layer (frontend.py) *)

(** The builtins of Python the request layer calls. *)
Class Builtins := {
  (** [int(s)] on a str; [None] stands for its ValueError *)
  int_of_str : string → option Z;
}.

(** [sub in s] on two strs *)
Fixpoint contains (sub s : string) : bool :=
  String.prefix sub s
  || match s with
     | EmptyString => false
     | String _ s' => contains sub s'
     end.

(** What a handler reads of the request. *)
Record Request := {
  method : string;
  form : gmap string string;
}.

(** What the templates are rendered with. *)
Inductive TemplateArgs :=
  | NoArgs
  | SuccessMessage (success_message : string)
  | ProfileArg (profile : gmap string value)
  | JobsArg (jobs : list (gmap string value)).

Inductive Response :=
  (** [redirect(url_for(endpoint))] *)
  | Redirect (endpoint : string)
  (** [render_template(template, **args)] *)
  | Render (template : string) (args : TemplateArgs).

(** The state Flask keeps for one client: the session and the messages
    flashed and not yet shown. *)
Record Client := {
  session : gmap string string;
  flashes : list string;
}.

(** [flash(msg)] *)
Definition flash (msg : string) (c : Client) : Client :=
  {| session := session c; flashes := flashes c ++ [msg] |}.

(** The lines every protected view begins with:
    [if "user" not in session: flash(...); return redirect(url_for("login"))] *)
Definition login_required (c : Client)
    (view : string → M (Response * Client)) : M (Response * Client) :=
  match session c !! "user" with
  | None => mret (Redirect "login", flash "Please log in first!" c)
  | Some user => view user
  end.

Section Frontend.
Context `{!Libraries, !Builtins}.

Definition home (c : Client) : M (Response * Client) :=
  mret (Redirect "login", c).

Definition register (req : Request) (c : Client) : M (Response * Client) :=
  if bool_decide (method req = "POST") then
    em ← getitem (form req) "email";
    password ← getitem (form req) "password";
    msg ← register_user em password;
    let c := flash msg c in
    if contains "Registration successful!" msg
    then mret (Redirect "login", c)
    else mret (Redirect "register", c)
  else mret (Render "register.html" NoArgs, c).

Definition login (req : Request) (c : Client) : M (Response * Client) :=
  if bool_decide (method req = "POST") then
    em ← getitem (form req) "email";
    password ← getitem (form req) "password";
    msg ← login_user em password;
    let c := flash msg c in
    if contains "Login successful!" msg
    then mret (Redirect "dashboard",
               {| session := <["user" := em]> (session c);
                  flashes := flashes c |})
    else mret (Redirect "login", c)
  else mret (Render "login.html" NoArgs, c).

(** [int(request.form.get("experience_months", 0))] *)
Definition experience_months_of (f : gmap string string) : M Z :=
  match f !! "experience_months" with
  | None => mret 0
  | Some s =>
      match int_of_str s with
      | Some n => mret n
      | None => raise (ValueError
          ("invalid literal for int() with base 10: '" +:+ s +:+ "'"))
      end
  end.

Definition dashboard (req : Request) (c : Client) : M (Response * Client) :=
  login_required c (λ user,
    profile_data ← get_profile user;
    if bool_decide (method req = "POST") then
      months ← experience_months_of (form req);
      let data : gmap string value :=
        list_to_map
          [ ("user_email", VStr user);
            ("first_name", VStr (get_str (form req) "first_name"));
            ("last_name", VStr (get_str (form req) "last_name"));
            ("address", VStr (get_str (form req) "address"));
            ("city", VStr (get_str (form req) "city"));
            ("mobile_number", VStr (get_str (form req) "mobile_number"));
            ("github_url", VStr (get_str (form req) "github_url"));
            ("job_position", VStr (get_str (form req) "job_position"));
            ("experience_months", VInt months);
            ("skills", VStr (get_str (form req) "skills"));
            ("preferred_locations",
              VStr (get_str (form req) "preferred_locations")) ] in
      (if bool_decide (profile_data ≠ ∅)
       then update_profile user data
       else save_profile data);;
      mret (Redirect "job_details", flash "Profile saved successfully!" c)
    else mret (Render "dashboard.html" (ProfileArg profile_data), c)).

(** The dict [job_details] builds from the session and the form. *)
Definition job_form_data (user : string) (f : gmap string string)
    : gmap string string :=
  list_to_map
    [ ("user_email", user);
      ("job_link", get_str f "job_link");
      ("company_name", get_str f "company_name");
      ("job_role", get_str f "job_role");
      ("job_location", get_str f "job_location");
      ("status", get_str f "status");
      ("recruiter_name", get_str f "recruiter_name");
      ("recruiter_email", get_str f "recruiter_email");
      ("recruiter_phone", get_str f "recruiter_phone");
      ("comments", get_str f "comments") ].

Definition job_details (req : Request) (c : Client)
    : M (Response * Client) :=
  login_required c (λ user,
    if bool_decide (method req = "POST") then
      let data := job_form_data user (form req) in
      u ← getitem data "user_email";
      link ← getitem data "job_link";
      dup ← job_exists_for_user u link;
      if (dup : bool) then
        mret (Render "job_details.html"
                (SuccessMessage "Duplicate Job Link! Record not added."), c)
      else
        save_job_application data;;
        mret (Render "job_details.html"
                (SuccessMessage "Form filled successfully!"), c)
    else mret (Render "job_details.html" NoArgs, c)).

(** The body of the loop of [applications] on one job. *)
Definition with_days_since_created (job : gmap string value)
    : M (gmap string value) :=
  created ← getitem job "created_at";
  created_dt ← match created with
               | VStr s =>
                   match fromisoformat s with
                   | Some t => mret t
                   | None => raise (ValueError
                       ("Invalid isoformat string: '" +:+ s +:+ "'"))
                   end
               | VInt _ => raise (ValueError
                   "fromisoformat: argument must be str")
               end;
  t ← utcnow;
  mret (<["days_since_created" := VInt ((t - created_dt) `div` 86400000000)]>
          job).

(** [for job in apps: ...], the jobs updated in place *)
Fixpoint each_with_days (apps : list (gmap string value))
    : M (list (gmap string value)) :=
  match apps with
  | [] => mret []
  | job :: apps' =>
      job' ← with_days_since_created job;
      rest ← each_with_days apps';
      mret (job' :: rest)
  end.

Definition applications (c : Client) : M (Response * Client) :=
  login_required c (λ user,
    apps ← get_user_applications user;
    apps ← each_with_days apps;
    mret (Render "applications.html" (JobsArg apps), c)).

Definition delete_job (job_id : Z) (c : Client) : M (Response * Client) :=
  login_required c (λ _,
    msg ← delete_job_application_by_id job_id;
    mret (Redirect "applications", flash msg c)).

Definition logout (c : Client) : M (Response * Client) :=
  mret (Redirect "login",
        flash "Logged out successfully."
          {| session := delete "user" (session c); flashes := flashes c |}).

Definition profile (c : Client) : M (Response * Client) :=
  login_required c (λ user,
    profile_data ← get_profile user;
    if bool_decide (profile_data ≠ ∅) then
      mret (Render "profile.html" (ProfileArg profile_data), c)
    else
      mret (Redirect "dashboard",
            flash "No profile found. Please fill your details." c)).

End Frontend.

(** ** Specification-level notions *)

(** The UNIQUE constraint on users.email. *)
Definition unique_emails (t : Table UserRow) : Prop :=
  ∀ i j r1 r2, rows t !! i = Some r1 → rows t !! j = Some r2 →
    email r1 = email r2 → i = j.

(** A first row the mirror append keeps: its first twelve cells are the
    canonical names once surrounding whitespace is stripped. *)
Definition header_ok (first_row : list string) : Prop :=
  strip <$> take 12 first_row = headers.

(** A data row whose cells under the first "User Email" header and under the
    first "Job Link" header are the given values. *)
Definition pair_in_row (hs : list string) (u_email link : string)
    (row : list string) : Prop :=
  ∃ cu cl, index_of "User Email" hs = Some cu ∧ index_of "Job Link" hs = Some cl
    ∧ row !! cu = Some u_email ∧ row !! cl = Some link.

Global Instance pair_in_row_dec hs u_email link row :
  Decision (pair_in_row hs u_email link row).
Proof.
  unfold pair_in_row.
  destruct (index_of "User Email" hs) as [cu|] eqn:Hu;
    [|right; intros (? & ? & ? & _); discriminate].
  destruct (index_of "Job Link" hs) as [cl|] eqn:Hl;
    [|right; intros (? & ? & _ & ? & _); discriminate].
  destruct (decide (row !! cu = Some u_email ∧ row !! cl = Some link))
    as [Hd|Hd].
  - left. exists cu, cl. tauto.
  - right. intros (? & ? & ? & ? & ? & ?). simplify_eq. tauto.
Defined.

(** The calls of the transport that are still to come all go through. *)
Definition transport_up (w : World) : Prop := faults w = [].

(** The three tables of the local store. *)
Definition store (w : World)
    : Table UserRow * Table ProfileRow * Table JobRow :=
  (users w, user_profiles w, job_applications w).

(** A computation that leaves the local store as it found it. *)
Definition keeps_store {A} (m : M A) : Prop :=
  ∀ w, store (exec m w) = store w.

(** A computation that raises nothing, whatever the world does. *)
Definition never_raises {A} (m : M A) : Prop :=
  ∀ w, ∃ a, run m w = Return a.


(** ** Stand-ins for the libraries and worlds to run the backend on *)

Fixpoint has_at (s : string) : bool :=
  match s with
  | EmptyString => false
  | String c s' => bool_decide (Ascii.nat_of_ascii c = 64%nat) || has_at s'
  end.

Fixpoint parse_digits (acc : Z) (s : string) : option Z :=
  match s with
  | EmptyString => Some acc
  | String c s' =>
      let n := Z.of_nat (Ascii.nat_of_ascii c) - 48 in
      if (0 <=? n) && (n <=? 9) then parse_digits (10 * acc + n) s' else None
  end.

Definition toy_libraries : Libraries := {|
  validators_email := has_at;
  bcrypt_hashpw := λ password salt, salt +:+ "$" +:+ password;
  bcrypt_checkpw := λ password hashed,
    String.prefix (String.rev ("$" +:+ password)) (String.rev hashed);
  isoformat := λ t, pretty t;
  fromisoformat := parse_digits 0;
|}.

Definition toy_builtins : Builtins := {| int_of_str := parse_digits 0 |}.

Definition no_client : Client := {| session := ∅; flashes := [] |}.

Definition client_of (user : string) : Client :=
  {| session := {[ "user" := user ]}; flashes := [] |}.

Definition empty_world : World :=
  {| users := empty_table; user_profiles := empty_table;
     job_applications := empty_table; sheet := [];
     clock := []; now := 0; salts := []; faults := []; stdout := [] |}.

Definition job1 : gmap string string :=
  {[ "user_email" := "a@x.com"; "job_link" := "http://job/1" ]}.

(** The world after [a@x.com] saved [job1] and [http://job/2]. *)
Definition world2 : World :=
  (save_job_application (H:=toy_libraries)
     (<["job_link" := "http://job/2"]> job1)
     (save_job_application (H:=toy_libraries) job1 empty_world).2).2.

Definition profile1 : gmap string value :=
  {[ "user_email" := VStr "a@x.com"; "city" := VStr "Pune" ]}.

(** The world after the profile [profile1] was saved. *)
Definition with_profile : World :=
  exec (save_profile (H:=toy_libraries) profile1) empty_world.


Definition post (f : gmap string string) : Request :=
  {| method := "POST"; form := f |}.

Definition credentials : gmap string string :=
  {[ "email" := "a@x.com"; "password" := "longpassword" ]}.

(** A header row with a blank before its first name. *)
Definition padded_headers : list string := " User Email" :: tail headers.

(** No user has two job applications with the same link. *)
Definition unique_links (t : Table JobRow) : Prop :=
  ∀ i j r1 r2, rows t !! i = Some r1 → rows t !! j = Some r2 →
    user_email r1 = user_email r2 → job_link r1 = job_link r2 → i = j.

(** A computation that leaves a transport that is up as it is. *)
Definition keeps_up {A} (m : M A) : Prop :=
  ∀ w, transport_up w → transport_up (exec m w).

(** ** Sequences of backend calls *)

(** One call of a function of the backend, its result dropped. *)
Inductive Call :=
  | InitDb
  | RegisterUser (em password : string)
  | LoginUser (em password : string)
  | SaveProfile (data : gmap string value)
  | GetProfile (u_email : string)
  | UpdateProfile (u_email : string) (data : gmap string value)
  | JobExistsForUser (u_email link : string)
  | SaveJobApplication (data : gmap string string)
  | GetUserApplications (u_email : string)
  | UpdateJobApplication (job_id : Z) (data : gmap string string)
  | DeleteJobApplicationById (job_id : Z)
  | ClearGoogleSheetRows.

Definition perform `{!Libraries} (c : Call) (w : World) : World :=
  match c with
  | InitDb => exec init_db w
  | RegisterUser em password => exec (register_user em password) w
  | LoginUser em password => exec (login_user em password) w
  | SaveProfile data => exec (save_profile data) w
  | GetProfile u_email => exec (get_profile u_email) w
  | UpdateProfile u_email data => exec (update_profile u_email data) w
  | JobExistsForUser u_email link => exec (job_exists_for_user u_email link) w
  | SaveJobApplication data => exec (save_job_application data) w
  | GetUserApplications u_email => exec (get_user_applications u_email) w
  | UpdateJobApplication job_id data =>
      exec (update_job_application job_id data) w
  | DeleteJobApplicationById job_id =>
      exec (delete_job_application_by_id job_id) w
  | ClearGoogleSheetRows => exec clear_google_sheet_rows w
  end.

(** The rowids of a table are positive and none is beyond the counter. *)
Definition ids_within {R} (t : Table R) : Prop :=
  0 ≤ seq t ∧ ∀ i r, rows t !! i = Some r → 1 ≤ i ≤ seq t.

(** What the schema promises of the local store. *)
Definition consistent (w : World) : Prop :=
  unique_emails (users w) ∧ ids_within (users w)
  ∧ ids_within (user_profiles w) ∧ ids_within (job_applications w).

(** * Properties *)

(** ** Tables *)

Section TableFacts.
Context {R : Type}.
Implicit Types (t : Table R) (m : gmap Z R) (l : list (Z * R)).

Lemma max_rowid_ge m i r : m !! i = Some r → i ≤ max_rowid m.
Proof.
  unfold max_rowid. revert i r.
  apply (map_fold_weak_ind (λ acc m, ∀ i r, m !! i = Some r → i ≤ acc)).
  - intros i r Hi. by rewrite lookup_empty in Hi.
  - intros k x m' acc Hk IH i r Hi.
    destruct (decide (k = i)) as [->|Hne]; [lia|].
    rewrite lookup_insert_ne in Hi by done. specialize (IH i r Hi). lia.
Qed.

Lemma next_rowid_fresh t : rows t !! next_rowid t = None.
Proof.
  destruct (rows t !! next_rowid t) as [r|] eqn:Hr; [|done].
  apply max_rowid_ge in Hr. unfold next_rowid in Hr. lia.
Qed.

Lemma insert_row_size (r : R) t :
  size (rows (insert_row r t)) = S (size (rows t)).
Proof. apply map_size_insert_None, next_rowid_fresh. Qed.

Lemma insert_row_lookup (r : R) t i x :
  rows (insert_row r t) !! i = Some x ↔
  (i = next_rowid t ∧ x = r) ∨ rows t !! i = Some x.
Proof.
  simpl. destruct (decide (next_rowid t = i)) as [<-|Hne].
  - rewrite lookup_insert_eq, next_rowid_fresh. split.
    + intros [= ->]. by left.
    + intros [[_ ->]|[=]]. done.
  - rewrite lookup_insert_ne by done. split; [by right|].
    intros [[-> _]|Hi]; done.
Qed.

Lemma elem_of_scan t i r : (i, r) ∈ scan t ↔ rows t !! i = Some r.
Proof.
  unfold scan. rewrite merge_sort_Permutation. apply elem_of_map_to_list.
Qed.

Lemma NoDup_fst_scan t : NoDup (scan t).*1.
Proof.
  unfold scan. rewrite merge_sort_Permutation. apply NoDup_fst_map_to_list.
Qed.

Lemma elem_of_select_where (P : R → bool) t i r :
  (i, r) ∈ select_where P t ↔ rows t !! i = Some r ∧ P r = true.
Proof.
  unfold select_where. rewrite list_elem_of_filter, elem_of_scan. tauto.
Qed.

Lemma NoDup_fst_select_where (P : R → bool) t : NoDup (select_where P t).*1.
Proof.
  unfold select_where. generalize (NoDup_fst_scan t).
  induction (scan t) as [|[i r] l IH]; [done|].
  rewrite fmap_cons, NoDup_cons. intros [Hi Hl].
  rewrite filter_cons. case_decide; [|by auto].
  rewrite fmap_cons, NoDup_cons. split; [|by auto].
  intros Hin. apply Hi. apply list_elem_of_fmap in Hin as ([j x] & -> & Hx).
  apply list_elem_of_filter in Hx as [_ Hx].
  apply list_elem_of_fmap. by exists (j, x).
Qed.

Lemma fetchone_select_where_None (P : R → bool) t :
  fetchone (select_where P t) = None ↔
  ∀ i r, rows t !! i = Some r → P r = false.
Proof.
  unfold fetchone. rewrite head_None. split.
  - intros Hnil i r Hi. destruct (P r) eqn:HP; [|done].
    assert ((i, r) ∈ select_where P t) as Hin
      by (by apply elem_of_select_where).
    rewrite Hnil in Hin. by apply not_elem_of_nil in Hin.
  - intros Hall. destruct (select_where P t) as [|[i r] l] eqn:Hs; [done|].
    assert ((i, r) ∈ select_where P t) as Hin by (rewrite Hs; left).
    apply elem_of_select_where in Hin as [Hi HP].
    rewrite (Hall i r Hi) in HP. done.
Qed.

Lemma fetchone_select_where_Some (P : R → bool) t i r :
  fetchone (select_where P t) = Some (i, r) →
  rows t !! i = Some r ∧ P r = true.
Proof.
  unfold fetchone. intros Hh. apply elem_of_select_where.
  destruct (select_where P t); simplify_eq/=. left.
Qed.

Global Instance id_ge_total : Total (@id_ge R).
Proof. intros a b. unfold id_ge. lia. Qed.
Global Instance id_ge_trans : Transitive (@id_ge R).
Proof. intros a b c. unfold id_ge. lia. Qed.

Lemma elem_of_order_by_id_desc l x : x ∈ order_by_id_desc l ↔ x ∈ l.
Proof. unfold order_by_id_desc. by rewrite merge_sort_Permutation. Qed.

Lemma order_by_id_desc_sorted l : StronglySorted id_ge (order_by_id_desc l).
Proof. apply StronglySorted_merge_sort; apply _. Qed.


Lemma fetchone_order_by_id_desc_None l :
  fetchone (order_by_id_desc l) = None ↔ l = [].
Proof.
  unfold fetchone. rewrite head_None. split.
  - intros Hnil. destruct l as [|x l]; [done|].
    assert (x ∈ order_by_id_desc (x :: l)) as Hin
      by (apply elem_of_order_by_id_desc; left).
    rewrite Hnil in Hin. by apply not_elem_of_nil in Hin.
  - by intros ->.
Qed.


End TableFacts.

(** ** The monad: frames and exceptions *)

Ltac unfold_monad :=
  unfold keeps_store, never_raises, run, exec, mbind, M_bind, mret, M_ret,
    try_except, try_except_IntegrityError, raise, get, modify, print in *.

Section MonadFacts.
Context {A B : Type}.

Lemma run_bind (m : M A) (f : A → M B) w :
  (m ≫= f) w =
  match m w with
  | (Return a, w') => f a w'
  | (Raise e, w') => (Raise e, w')
  end.
Proof. reflexivity. Qed.

Lemma keeps_store_ret (a : A) : keeps_store (mret a).
Proof. by unfold_monad. Qed.

Lemma keeps_store_raise e : keeps_store (raise e : M A).
Proof. by unfold_monad. Qed.

Lemma keeps_store_get (f : World → A) : keeps_store (get f).
Proof. by unfold_monad. Qed.

Lemma keeps_store_bind (m : M A) (f : A → M B) :
  keeps_store m → (∀ a, keeps_store (f a)) → keeps_store (m ≫= f).
Proof.
  unfold_monad. intros Hm Hf w. specialize (Hm w).
  destruct (m w) as [[a|e] w']; simpl in *; [|done].
  by rewrite Hf.
Qed.

Lemma keeps_store_try_except (m : M A) (h : exn → M A) :
  keeps_store m → (∀ e, keeps_store (h e)) → keeps_store (try_except m h).
Proof.
  unfold_monad. intros Hm Hh w. specialize (Hm w).
  destruct (m w) as [[a|e] w']; simpl in *; [done|].
  by rewrite Hh.
Qed.

Lemma never_raises_ret (a : A) : never_raises (mret a).
Proof. unfold_monad. intros w. by exists a. Qed.

Lemma never_raises_bind (m : M A) (f : A → M B) :
  never_raises m → (∀ a, never_raises (f a)) → never_raises (m ≫= f).
Proof.
  unfold_monad. intros Hm Hf w. destruct (Hm w) as [a Ha].
  destruct (m w) as [[a'|e] w']; simplify_eq/=. apply Hf.
Qed.

(** A handler for every exception that raises nothing itself: nothing gets
    through. *)
Lemma never_raises_try_except (m : M A) (h : exn → M A) :
  (∀ e, never_raises (h e)) → never_raises (try_except m h).
Proof.
  unfold_monad. intros Hh w.
  destruct (m w) as [[a|e] w']; simpl; [by exists a|]. apply Hh.
Qed.

End MonadFacts.

Lemma keeps_store_print line : keeps_store (print line).
Proof. by unfold_monad. Qed.

Lemma never_raises_print line : never_raises (print line).
Proof. unfold_monad. intros w. by exists tt. Qed.

Lemma keeps_store_utcnow : keeps_store utcnow.
Proof. intros w. unfold exec, utcnow. by destruct (clock w). Qed.

Lemma keeps_store_gensalt : keeps_store gensalt.
Proof. intros w. unfold exec, gensalt. by destruct (salts w). Qed.

Lemma keeps_store_transport : keeps_store transport.
Proof. intros w. unfold exec, transport. by destruct (faults w) as [|[?|] ?]. Qed.

Lemma keeps_store_set_sheet f : keeps_store (modify (set_sheet f)).
Proof. by unfold_monad. Qed.

Create HintDb frame discriminated.
#[export] Hint Resolve keeps_store_ret keeps_store_raise keeps_store_get
  keeps_store_print keeps_store_utcnow keeps_store_gensalt
  keeps_store_transport keeps_store_set_sheet : frame.
#[export] Hint Extern 2 (keeps_store (_ ≫= _)) =>
  apply keeps_store_bind; [|intros ?] : frame.
#[export] Hint Extern 2 (keeps_store (try_except _ _)) =>
  apply keeps_store_try_except; [|intros ?] : frame.
#[export] Hint Extern 3 (keeps_store (match ?x with _ => _ end)) =>
  destruct x : frame.
#[export] Hint Extern 3 (keeps_store (if ?x then _ else _)) =>
  destruct x : frame.

Lemma keeps_store_open_sheet1 : keeps_store open_sheet1.
Proof. unfold open_sheet1. auto with frame. Qed.

Lemma keeps_store_sheet_get_all_values : keeps_store sheet_get_all_values.
Proof. unfold sheet_get_all_values. auto with frame. Qed.

Lemma keeps_store_sheet_append_row row : keeps_store (sheet_append_row row).
Proof. unfold sheet_append_row. auto with frame. Qed.

Lemma keeps_store_sheet_clear : keeps_store sheet_clear.
Proof. unfold sheet_clear. auto with frame. Qed.

Lemma keeps_store_sheet_delete_rows i : keeps_store (sheet_delete_rows i).
Proof. unfold sheet_delete_rows. auto with frame. Qed.

#[export] Hint Resolve keeps_store_open_sheet1 keeps_store_sheet_get_all_values
  keeps_store_sheet_append_row keeps_store_sheet_clear
  keeps_store_sheet_delete_rows : frame.

Lemma keeps_store_for_each {A} (l : list A) (body : A → M unit) :
  (∀ x, keeps_store (body x)) → keeps_store (for_each l body).
Proof. intros Hb. induction l; simpl; auto with frame. Qed.

Section MirrorFrames.
Context `{!Libraries}.

(** The mirror never writes to the local store. *)
Lemma keeps_store_append_job_to_google_sheets data created_iso :
  keeps_store (append_job_to_google_sheets data created_iso).
Proof. unfold append_job_to_google_sheets. auto 20 with frame. Qed.

Lemma keeps_store_delete_job_from_google_sheets u_email link :
  keeps_store (delete_job_from_google_sheets u_email link).
Proof.
  unfold delete_job_from_google_sheets.
  apply keeps_store_try_except; [|auto with frame].
  apply keeps_store_bind; [auto with frame|intros _].
  apply keeps_store_bind; [auto with frame|intros data].
  destruct data as [|hs [|row data_rows]]; [auto with frame..|].
  destruct (column_of _ hs); [|auto with frame].
  destruct (column_of _ hs); [|auto with frame].
  destruct (collect_rows _ _ _ _ _ _); [auto with frame|].
  apply keeps_store_bind; [|auto with frame].
  apply keeps_store_for_each. auto with frame.
Qed.

(** Both mirror operations hand every exception to a handler that returns a
    string. *)
Lemma never_raises_append_job_to_google_sheets data created_iso :
  never_raises (append_job_to_google_sheets data created_iso).
Proof.
  apply never_raises_try_except. intros e.
  apply never_raises_bind; [apply never_raises_print|].
  intros _. apply never_raises_ret.
Qed.

Lemma never_raises_delete_job_from_google_sheets u_email link :
  never_raises (delete_job_from_google_sheets u_email link).
Proof.
  apply never_raises_try_except. intros e.
  apply never_raises_bind; [apply never_raises_print|].
  intros _. apply never_raises_ret.
Qed.

End MirrorFrames.

(** ** Running single steps *)

Lemma bind_ret_l {A B} (a : A) (f : A → M B) w : (mret a ≫= f) w = f a w.
Proof. reflexivity. Qed.

Lemma bind_returns {A B} (m : M A) (f : A → M B) w a w' :
  m w = (Return a, w') → (m ≫= f) w = f a w'.
Proof. intros Hm. by rewrite run_bind, Hm. Qed.

Lemma utcnow_spec w :
  ∃ t w', utcnow w = (Return t, w') ∧ store w' = store w
    ∧ faults w' = faults w ∧ sheet w' = sheet w.
Proof. unfold utcnow. destruct (clock w); eauto 10. Qed.

Lemma surely {A} (m : M A) w :
  never_raises m → keeps_store m →
  ∃ a w', m w = (Return a, w') ∧ store w' = store w.
Proof.
  intros Hr Hk. destruct (Hr w) as [a Ha]. specialize (Hk w).
  unfold run, exec in *. destruct (m w) as [o w']. simpl in *. subst o.
  by exists a, w'.
Qed.

Section Create.
Context `{!Libraries}.

(** ** Creating a job application *)

(** The definition the name ends up bound to makes no duplicate test: given
    a dict with a user_email it inserts a row and reports success, always. *)
Lemma save_job_application_spec data u w :
  data !! "user_email" = Some u →
  ∃ t w',
    save_job_application data w
      = (Return "Job application saved successfully!", w')
    ∧ store w' = (users w, user_profiles w,
                  insert_row (job_row_of u data (isoformat t))
                    (job_applications w)).
Proof.
  intros Hu. unfold save_job_application.
  destruct (utcnow_spec w) as (t & w1 & Ht & Hs1 & _).
  rewrite run_bind, Ht. unfold getitem. rewrite Hu.
  rewrite run_bind. unfold mret at 1, M_ret. rewrite run_bind.
  unfold modify at 1. rewrite run_bind.
  set (w2 := set_job_applications _ w1).
  destruct (surely (append_job_to_google_sheets data (isoformat t)) w2)
    as (s & w3 & Hs & Hs3).
  { apply never_raises_append_job_to_google_sheets. }
  { apply keeps_store_append_job_to_google_sheets. }
  rewrite Hs. exists t. eexists. split; [reflexivity|].
  unfold store in *. simpl. simplify_eq/=. congruence.
Qed.

Lemma save_job_application_always_inserts data u w :
  data !! "user_email" = Some u →
  run (save_job_application data) w
    = Return "Job application saved successfully!"
  ∧ size (rows (job_applications (exec (save_job_application data) w)))
    = S (size (rows (job_applications w))).
Proof.
  intros Hu.
  destruct (save_job_application_spec data u w Hu) as (t & w' & Hs & Hst).
  unfold run, exec. rewrite Hs. cbn [fst snd]. split; [done|].
  injection Hst as _ _ ->. apply insert_row_size.
Qed.

Lemma job_exists_for_user_true u link w :
  run (job_exists_for_user u link) w = Return true ↔
  ∃ i r, rows (job_applications w) !! i = Some r
    ∧ user_email r = u ∧ job_link r = link.
Proof.
  unfold job_exists_for_user, run. unfold_monad. simpl.
  set (P := λ r, bool_decide (user_email r = u) && bool_decide (job_link r = link)).
  split.
  - intros [= Hb]. apply bool_decide_eq_true in Hb.
    destruct (fetchone _) as [[i r]|] eqn:Hf; [|done].
    apply fetchone_select_where_Some in Hf as [Hi HP].
    apply andb_true_iff in HP as [H1 H2].
    apply bool_decide_eq_true in H1, H2. eauto.
  - intros (i & r & Hi & Hu & Hl). f_equal. apply bool_decide_eq_true.
    intros Hn. rewrite (fetchone_select_where_None P) in Hn.
    specialize (Hn i r Hi). unfold P in Hn.
    rewrite !bool_decide_eq_true_2 in Hn by done. done.
Qed.

Lemma get_str_lookup (data : gmap string string) k v :
  data !! k = Some v → get_str data k = v.
Proof. unfold get_str. by intros ->. Qed.

Lemma job_exists_for_user_pure u link w :
  ∃ b, job_exists_for_user u link w = (Return b, w).
Proof. eexists. reflexivity. Qed.

Lemma save_job_application_guarded_unfold data u link b w :
  data !! "user_email" = Some u → data !! "job_link" = Some link →
  job_exists_for_user u link w = (Return b, w) →
  save_job_application_guarded data w =
  if b then (Return "Duplicate job link for this user. Record not added.", w)
  else save_job_application data w.
Proof.
  intros Hu Hl Hb. unfold save_job_application_guarded, getitem.
  rewrite Hu, Hl, !bind_ret_l. rewrite (bind_returns _ _ _ _ _ Hb).
  by destruct b.
Qed.

(** The first definition, the one with the duplicate test, does what the
    documentation says: once a pair is saved, it is found, and saving it
    again is refused and changes nothing. *)
Lemma save_job_application_guarded_refuses_duplicate data u link w :
  data !! "user_email" = Some u → data !! "job_link" = Some link →
  run (save_job_application_guarded data) w
    = Return "Job application saved successfully!" →
  let w1 := exec (save_job_application_guarded data) w in
  run (job_exists_for_user u link) w1 = Return true
  ∧ save_job_application_guarded data w1
    = (Return "Duplicate job link for this user. Record not added.", w1).
Proof.
  intros Hu Hl Hrun w1.
  assert (run (job_exists_for_user u link) w1 = Return true) as Hex.
  { subst w1. revert Hrun. unfold run, exec.
    destruct (job_exists_for_user_pure u link w) as [b Hb].
    rewrite (save_job_application_guarded_unfold data u link b w Hu Hl Hb).
    destruct b; [intros ?; simplify_eq/=|].
    destruct (save_job_application_spec data u w Hu) as (t & w' & Hs & Hst).
    rewrite Hs. intros _.
    apply (job_exists_for_user_true u link w').
    exists (next_rowid (job_applications w)), (job_row_of u data (isoformat t)).
    injection Hst as _ _ ->. split; [apply lookup_insert_eq|].
    split; [done|]. simpl. by apply get_str_lookup. }
  split; [done|].
  destruct (job_exists_for_user_pure u link w1) as [b Hb].
  rewrite (save_job_application_guarded_unfold data u link b w1 Hu Hl Hb).
  unfold run in Hex. rewrite Hb in Hex. by simplify_eq/=.
Qed.

End Create.

(** C1. The claim: after a successful create, exists is true on the pair
    and a second create with the identical pair fails with the duplicate
    result, the row count unchanged. The code, once the module is loaded:
    in the world where a@x.com has just saved http://job/1, the pair is
    found, and saving it again is reported as a success and leaves two rows
    where there was one. *)
Theorem save_job_application_accepts_duplicate :
  let w1 := exec (save_job_application (H:=toy_libraries) job1) empty_world in
  let w2 := exec (save_job_application (H:=toy_libraries) job1) w1 in
  run (save_job_application (H:=toy_libraries) job1) empty_world
    = Return "Job application saved successfully!"
  ∧ run (job_exists_for_user "a@x.com" "http://job/1") w1 = Return true
  ∧ run (save_job_application (H:=toy_libraries) job1) w1
    = Return "Job application saved successfully!"
  ∧ size (rows (job_applications w1)) = 1%nat
  ∧ size (rows (job_applications w2)) = 2%nat.
Proof. vm_compute. auto. Qed.

(** ** The failure policy of the mirror *)

Section ReturnsOnly.
Context {A B : Type}.




End ReturnsOnly.

Section FailurePolicy.
Context `{!Libraries}.



Lemma delete_job_application_by_id_found job_id r w :
  rows (job_applications w) !! job_id = Some r →
  ∃ sheet_msg w2,
    delete_job_from_google_sheets (user_email r) (job_link r)
      (set_job_applications (delete_by_id job_id) w) = (Return sheet_msg, w2)
    ∧ delete_job_application_by_id job_id w
      = (Return ("Job application deleted successfully (" +:+ sheet_msg +:+ ")"),
         set_stdout (λ out, out ++ ["Google Sheets: " +:+ sheet_msg]) w2)
    ∧ store w2 = (users w, user_profiles w,
                  delete_by_id job_id (job_applications w)).
Proof.
  intros Hr.
  destruct (surely (delete_job_from_google_sheets (user_email r) (job_link r))
              (set_job_applications (delete_by_id job_id) w))
    as (s & w2 & Hs & Hst).
  { apply never_raises_delete_job_from_google_sheets. }
  { apply keeps_store_delete_job_from_google_sheets. }
  exists s, w2. split; [done|]. split; [|done].
  unfold delete_job_application_by_id.
  rewrite (bind_returns _ _ w (Some r) w) by (unfold get; by rewrite Hr).
  rewrite (bind_returns _ _ w tt (set_job_applications (delete_by_id job_id) w))
    by done.
  by rewrite (bind_returns _ _ _ _ _ Hs).
Qed.

End FailurePolicy.




(** ** The transport when it is up *)

Lemma transport_up_run w : transport_up w → transport w = (Return tt, w).
Proof. unfold transport_up, transport. by intros ->. Qed.

Lemma open_sheet1_up w : transport_up w → open_sheet1 w = (Return tt, w).
Proof.
  intros Hup. unfold open_sheet1.
  rewrite !(bind_returns _ _ _ _ _ (transport_up_run w Hup)).
  by apply transport_up_run.
Qed.

Lemma sheet_get_all_values_up w :
  transport_up w → sheet_get_all_values w = (Return (sheet w), w).
Proof.
  intros Hup. unfold sheet_get_all_values.
  by rewrite (bind_returns _ _ _ _ _ (transport_up_run w Hup)).
Qed.

Lemma sheet_append_row_up row w :
  transport_up w →
  sheet_append_row row w = (Return tt, set_sheet (λ s, s ++ [row]) w).
Proof.
  intros Hup. unfold sheet_append_row.
  by rewrite (bind_returns _ _ _ _ _ (transport_up_run w Hup)).
Qed.

Lemma sheet_clear_up w :
  transport_up w → sheet_clear w = (Return tt, set_sheet (λ _, []) w).
Proof.
  intros Hup. unfold sheet_clear.
  by rewrite (bind_returns _ _ _ _ _ (transport_up_run w Hup)).
Qed.

Lemma sheet_delete_rows_up i w :
  transport_up w →
  sheet_delete_rows i w = (Return tt, set_sheet (delete (i - 1)%nat) w).
Proof.
  intros Hup. unfold sheet_delete_rows.
  by rewrite (bind_returns _ _ _ _ _ (transport_up_run w Hup)).
Qed.

(** ** The header test of the mirror append *)

Lemma header_test_spec (hs first_row : list string) :
  Forall (λ h, strip h = h) hs →
  (Z.of_nat (length first_row) <? Z.of_nat (length hs))
  || existsb (λ hh, bool_decide (strip hh.1 ≠ strip hh.2)) (zip first_row hs)
  = false
  ↔ strip <$> take (length hs) first_row = hs.
Proof.
  intros Hhs. revert first_row.
  induction Hhs as [|h hs Hh Hhs IH]; intros first_row.
  - destruct first_row; simpl; by rewrite ?take_0.
  - destruct first_row as [|c first_row].
    { simpl. split; intros; discriminate. }
    specialize (IH first_row). simpl length. rewrite firstn_cons, fmap_cons.
    cbn [zip zip_with existsb fst snd]. rewrite Hh.
    rewrite orb_false_iff in IH |- *. rewrite orb_false_iff.
    rewrite Z.ltb_ge in IH |- *. rewrite bool_decide_eq_false.
    split.
    + intros (Hlen & Hc & Hex). f_equal.
      * by destruct (decide (strip c = h)).
      * apply IH. split; [lia|done].
    + intros [= Hc Heq]. apply IH in Heq as [Hlen Hex].
      split; [lia|]. split; [|done]. intros Hn. by apply Hn.
Qed.

Lemma header_mismatch_false first_row :
  header_mismatch first_row = false ↔ header_ok first_row.
Proof.
  unfold header_mismatch, header_ok.
  apply (header_test_spec headers first_row).
  repeat constructor.
Qed.

Section Append.
Context `{!Libraries}.

Lemma append_job_to_google_sheets_up data created_iso created_dt w :
  transport_up w → fromisoformat created_iso = Some created_dt →
  ∃ t w',
    append_job_to_google_sheets data created_iso w
      = (Return "Job appended to Google Sheets.", w')
    ∧ sheet w' =
        match sheet w with
        | [] => [headers]
        | first_row :: _ =>
            if decide (header_ok first_row) then sheet w else [headers]
        end
        ++ [[ get_str data "user_email"; get_str data "job_link";
              get_str data "company_name"; get_str data "job_role";
              get_str data "job_location"; get_str data "status";
              get_str data "recruiter_name"; get_str data "recruiter_email";
              get_str data "recruiter_phone";
              pretty ((t - created_dt) `div` 86400000000);
              get_str data "comments"; created_iso ]].
Proof.
  intros Hup Hiso. unfold append_job_to_google_sheets, try_except.
  rewrite (bind_returns _ _ _ _ _ (open_sheet1_up w Hup)).
  rewrite (bind_returns _ _ _ _ _ (sheet_get_all_values_up w Hup)).
  rewrite Hiso.
  (* the header step *)
  assert (∃ w1, transport_up w1 ∧ clock w1 = clock w ∧ now w1 = now w
    ∧ match sheet w with
      | [] => sheet_append_row headers
      | first_row :: _ =>
          if header_mismatch first_row
          then sheet_clear;; sheet_append_row headers else mret tt
      end w = (Return tt, w1)
    ∧ sheet w1 =
        match sheet w with
        | [] => [headers]
        | first_row :: _ =>
            if decide (header_ok first_row) then sheet w else [headers]
        end) as (w1 & Hup1 & Hc1 & Hn1 & Hstep & Hsheet).
  { destruct (sheet w) as [|first_row rest] eqn:Hsh.
    - exists (set_sheet (λ s, s ++ [headers]) w).
      rewrite (sheet_append_row_up _ w Hup).
      split_and!; [done..|]. simpl. by rewrite Hsh.
    - destruct (header_mismatch first_row) eqn:Hm.
      + exists (set_sheet (λ s, s ++ [headers]) (set_sheet (λ _, []) w)).
        rewrite (bind_returns _ _ _ _ _ (sheet_clear_up w Hup)).
        rewrite sheet_append_row_up by done.
        split_and!; [done..|]. simpl. case_decide as Hok; [|done].
        apply header_mismatch_false in Hok. congruence.
      + exists w. split_and!; [done..|]. case_decide as Hok; [done|].
        by apply header_mismatch_false in Hm. }
  rewrite (bind_returns _ _ _ _ _ Hstep), bind_ret_l.
  destruct (utcnow_spec w1) as (t & w2 & Ht & _ & Hf2 & Hs2).
  rewrite (bind_returns _ _ _ _ _ Ht).
  assert (transport_up w2) as Hup2 by (unfold transport_up in *; congruence).
  rewrite (bind_returns _ _ _ _ _ (sheet_append_row_up _ w2 Hup2)).
  exists t. eexists. split; [reflexivity|]. simpl. by rewrite Hs2, Hsheet.
Qed.

End Append.




(** ** The scan of the mirror delete *)

Lemma index_of_Some name hs i :
  index_of name hs = Some i →
  hs !! i = Some name ∧ ∀ j, (j < i)%nat → hs !! j ≠ Some name.
Proof.
  revert i. induction hs as [|h hs IH]; intros i; simpl; [done|].
  case_bool_decide as Hh.
  - intros [= <-]. split; [by rewrite Hh|]. intros j Hj. lia.
  - destruct (index_of name hs) as [k|]; [|done]. intros [= <-].
    destruct (IH k eq_refl) as [Hk Hfirst]. split; [done|].
    intros [|j] Hj; simpl; [congruence|]. apply Hfirst. lia.
Qed.

Lemma index_of_None name hs : index_of name hs = None ↔ name ∉ hs.
Proof.
  induction hs as [|h hs IH]; simpl.
  - split; [intros _; apply not_elem_of_nil|done].
  - rewrite not_elem_of_cons. case_bool_decide as Hh.
    + split; [done|]. intros [Hn _]. by destruct Hn.
    + destruct (index_of name hs); simpl.
      * split; [done|]. intros [_ Hn]. by apply IH in Hn.
      * split; [|done]. intros _. split; [congruence|]. by apply IH.
Qed.

Lemma column_of_Some name hs c :
  column_of name hs = Some c ↔ ∃ i, c = S i ∧ index_of name hs = Some i.
Proof.
  unfold column_of. destruct (index_of name hs) as [i|]; simpl.
  - split; [intros [= <-]; eauto|]. by intros (j & -> & [= ->]).
  - split; [done|]. by intros (j & _ & ?).
Qed.

Lemma column_of_None name hs : column_of name hs = None ↔ name ∉ hs.
Proof.
  unfold column_of. rewrite <- index_of_None.
  by destruct (index_of name hs).
Qed.

(** The test of the loop is the test of the specification. *)
Lemma row_matches_spec cu cl u_email link (row : list string) :
  row_matches (S cu) (S cl) u_email link row = true ↔
  row !! cu = Some u_email ∧ row !! cl = Some link.
Proof.
  unfold row_matches. rewrite !andb_true_iff, !bool_decide_eq_true.
  rewrite Nat.leb_le. simpl. rewrite !Nat.sub_0_r, !nth_lookup. split.
  - intros [[Hlen Hu] Hl].
    destruct (lookup_lt_is_Some_2 row cu) as [x Hx]; [lia|].
    destruct (lookup_lt_is_Some_2 row cl) as [y Hy]; [lia|].
    rewrite Hx, Hy in *. simpl in *. by subst.
  - intros [Hu Hl]. rewrite Hu, Hl. split; [|done]. split; [|done].
    apply lookup_lt_Some in Hu, Hl. lia.
Qed.

Lemma row_matches_pair_in_row hs cu cl u_email link row :
  index_of "User Email" hs = Some cu → index_of "Job Link" hs = Some cl →
  row_matches (S cu) (S cl) u_email link row = true ↔
  pair_in_row hs u_email link row.
Proof.
  intros Hu Hl. rewrite row_matches_spec. unfold pair_in_row. split.
  - intros [? ?]. by exists cu, cl.
  - intros (cu' & cl' & Hu' & Hl' & ? & ?). by simplify_eq.
Qed.

Section Collect.
Variables (uc jc : nat) (u_email link : string).

Lemma elem_of_collect_rows i rs j :
  j ∈ collect_rows uc jc u_email link i rs ↔
  ∃ k row, j = (i + k)%nat ∧ rs !! k = Some row
    ∧ row_matches uc jc u_email link row = true.
Proof.
  revert i. induction rs as [|row rs IH]; intros i; simpl.
  - rewrite elem_of_nil. split; [done|]. by intros (k & r & _ & ? & _).
  - assert (j ∈ collect_rows uc jc u_email link (S i) rs ↔
      ∃ k r, j = (i + S k)%nat ∧ rs !! k = Some r
        ∧ row_matches uc jc u_email link r = true) as IH'.
    { rewrite IH. by setoid_rewrite Nat.add_succ_r. }
    destruct (row_matches uc jc u_email link row) eqn:Hm.
    + rewrite elem_of_cons, IH'. split.
      * intros [->|(k & r & -> & Hk & Hr)].
        -- exists 0%nat, row. by rewrite Nat.add_0_r.
        -- by exists (S k), r.
      * intros ([|k] & r & -> & Hk & Hr); simpl in Hk.
        -- left. lia.
        -- right. by exists k, r.
    + rewrite IH'. split.
      * intros (k & r & -> & Hk & Hr). by exists (S k), r.
      * intros ([|k] & r & -> & Hk & Hr); simpl in Hk; [congruence|].
        by exists k, r.
Qed.

Lemma collect_rows_ascending i rs :
  StronglySorted lt (collect_rows uc jc u_email link i rs).
Proof.
  revert i. induction rs as [|row rs IH]; intros i; simpl; [constructor|].
  destruct (row_matches uc jc u_email link row); [|apply IH].
  constructor; [apply IH|]. apply Forall_forall. intros j Hj.
  apply elem_of_collect_rows in Hj as (k & r & -> & _). lia.
Qed.

Lemma collect_rows_filter i rs :
  collect_rows uc jc u_email link i rs = [] ↔
  Forall (λ row, row_matches uc jc u_email link row = false) rs.
Proof.
  revert i. induction rs as [|row rs IH]; intros i; simpl.
  - split; [constructor|done].
  - rewrite Forall_cons.
    destruct (row_matches uc jc u_email link row); [|rewrite IH; tauto].
    split; [done|]. by intros [? _].
Qed.

(** Deleting the collected rows from the last to the first leaves the rows
    the test rejects; [pre] is what stands above row [i]. *)
Lemma delete_collected (pre rs : list (list string)) i :
  i = S (length pre) →
  foldl (λ s j, delete (j - 1)%nat s) (pre ++ rs)
    (reverse (collect_rows uc jc u_email link i rs))
  = pre ++ filter (λ row, row_matches uc jc u_email link row = false) rs.
Proof.
  revert pre i. induction rs as [|row rs IH]; intros pre i Hi; [done|].
  simpl collect_rows.
  assert (foldl (λ s j, delete (j - 1)%nat s) (pre ++ row :: rs)
            (reverse (collect_rows uc jc u_email link (S i) rs))
          = (pre ++ [row])
            ++ filter (λ row, row_matches uc jc u_email link row = false) rs)
    as Hrec.
  { rewrite (cons_middle row pre rs), (assoc_L (++)).
    apply IH. rewrite length_app. simpl. lia. }
  destruct (row_matches uc jc u_email link row) eqn:Hm.
  - rewrite reverse_cons, foldl_app, Hrec. simpl.
    rewrite filter_cons_False by (rewrite Hm; done).
    rewrite <- (assoc_L (++)). simpl.
    replace (i - 1)%nat with (length pre) by lia. apply delete_middle.
  - rewrite Hrec, filter_cons_True by done. by rewrite <- (assoc_L (++)).
Qed.

End Collect.

Global Instance nat_ge_antisymm : AntiSymm (=) nat_ge.
Proof. intros a b. unfold nat_ge. lia. Qed.
Global Instance nat_ge_total : Total nat_ge.
Proof. intros a b. unfold nat_ge. lia. Qed.
Global Instance nat_ge_trans : Transitive nat_ge.
Proof. intros a b c. unfold nat_ge. lia. Qed.

Lemma StronglySorted_mono {A} (R S : relation A) (l : list A) :
  (∀ a b, R a b → S a b) → StronglySorted R l → StronglySorted S l.
Proof.
  intros HRS. induction 1 as [|a l Hl IH Ha]; constructor; [done|].
  eapply Forall_impl; eauto.
Qed.

Lemma reverse_ascending (l : list nat) :
  StronglySorted lt l → StronglySorted (λ a b, (b < a)%nat) (reverse l).
Proof.
  induction 1 as [|a l Hl IH Ha]; [constructor|].
  rewrite reverse_cons. apply StronglySorted_app_2; [|done|repeat constructor].
  intros x y Hx Hy. rewrite elem_of_reverse in Hx.
  apply list_elem_of_singleton in Hy as ->.
  rewrite Forall_forall in Ha. by apply Ha.
Qed.

(** On indices collected in ascending order, [sorted(_, reverse=True)] is
    the reversal. *)
Lemma sorted_reverse_ascending (l : list nat) :
  StronglySorted lt l → sorted_reverse l = reverse l.
Proof.
  intros Hl. apply (StronglySorted_unique nat_ge).
  - apply StronglySorted_merge_sort; apply _.
  - eapply StronglySorted_mono; [|apply reverse_ascending, Hl].
    intros a b. unfold nat_ge. simpl. lia.
  - unfold sorted_reverse.
    by rewrite merge_sort_Permutation, reverse_Permutation.
Qed.

Lemma for_each_sheet_delete_rows_up (order : list nat) w :
  transport_up w →
  for_each order sheet_delete_rows w
  = (Return tt,
     set_sheet (λ s, foldl (λ s j, delete (j - 1)%nat s) s order) w).
Proof.
  revert w. induction order as [|i order IH]; intros w Hup; simpl.
  - by destruct w.
  - rewrite (bind_returns _ _ _ _ _ (sheet_delete_rows_up i w Hup)).
    by rewrite IH.
Qed.

Lemma pair_in_row_columns hs u_email link row :
  pair_in_row hs u_email link row → "User Email" ∈ hs ∧ "Job Link" ∈ hs.
Proof.
  intros (cu & cl & Hu & Hl & _).
  apply index_of_Some in Hu as [Hu _]. apply index_of_Some in Hl as [Hl _].
  split; eapply list_elem_of_lookup_2; eassumption.
Qed.

Lemma elem_of_collected hs rs cu cl u_email link i :
  index_of "User Email" hs = Some cu → index_of "Job Link" hs = Some cl →
  i ∈ collect_rows (S cu) (S cl) u_email link 2 rs ↔
  (2 ≤ i)%nat ∧ ∃ hs' row, (hs :: rs) !! 0%nat = Some hs'
    ∧ (hs :: rs) !! (i - 1)%nat = Some row ∧ pair_in_row hs' u_email link row.
Proof.
  intros Hu Hl. rewrite elem_of_collect_rows. split.
  - intros (k & row & -> & Hk & Hm). split; [lia|]. exists hs, row.
    split; [done|]. replace (2 + k - 1)%nat with (S k) by lia.
    split; [done|]. by apply (row_matches_pair_in_row hs cu cl).
  - intros (Hi & hs' & row & [= <-] & Hrow & Hp).
    exists (i - 2)%nat, row. split; [lia|].
    replace (i - 1)%nat with (S (i - 2)) in Hrow by lia.
    split; [done|]. by apply (row_matches_pair_in_row hs cu cl).
Qed.

Lemma filter_all {A} (P : A → Prop) `{!∀ x, Decision (P x)} (l : list A) :
  Forall P l → filter P l = l.
Proof.
  induction 1 as [|x l Hx Hl IH]; [done|].
  by rewrite filter_cons_True, IH.
Qed.

(** What the mirror delete promises when it removes nothing. *)
Lemma nothing_to_remove u_email link w :
  match sheet w with
  | [] => True
  | hs :: data_rows => Forall (λ row, ¬ pair_in_row hs u_email link row) data_rows
  end →
  StronglySorted (λ a b, (b < a)%nat) []
  ∧ (∀ i, i ∈ @nil nat ↔
       (2 ≤ i)%nat ∧ ∃ hs row, sheet w !! 0%nat = Some hs
         ∧ sheet w !! (i - 1)%nat = Some row
         ∧ pair_in_row hs u_email link row)
  ∧ sheet (exec (for_each [] sheet_delete_rows) w) =
      match sheet w with
      | [] => []
      | hs :: data_rows =>
          hs :: filter (λ row, ¬ pair_in_row hs u_email link row) data_rows
      end
  ∧ (@nil nat = [] → exec (for_each [] sheet_delete_rows) w = w).
Proof.
  intros Hno. split; [constructor|]. split; [|split; [|done]].
  - intros i. rewrite elem_of_nil. split; [done|].
    intros (Hi & hs & row & Hhs & Hrow & Hp).
    destruct (sheet w) as [|hs' rs]; [done|]. injection Hhs as ->.
    destruct (i - 1)%nat as [|k] eqn:Hk; [lia|]. simpl in Hrow.
    rewrite Forall_forall in Hno. apply (Hno row); [|done].
    by eapply list_elem_of_lookup_2.
  - change (exec (for_each [] sheet_delete_rows) w) with w.
    destruct (sheet w) as [|hs rs]; [done|]. by rewrite filter_all.
Qed.

(** C4. With the transport up, the mirror delete goes through with a
    message and a list [order] of the row indices it removes, one call of
    [delete_rows] each, in that order. The list is strictly descending and
    holds exactly the indices of the data rows (rows 2 and below) whose
    cells under the User Email and Job Link headers are the two given
    values; what is left is the header row and the data rows that do not
    match, in their order. On an empty sheet and on a sheet with a header row
    only, with one of the two headers missing, and with no matching row, the
    list is empty, the world is left as it was, and the message is the one
    of that case; otherwise it is the message of a deletion. *)
Theorem delete_job_from_google_sheets_exact (u_email link : string)
    (w : World) :
  transport_up w →
  ∃ msg order,
    delete_job_from_google_sheets u_email link w
      = (Return msg, exec (for_each order sheet_delete_rows) w)
    ∧ match sheet w with
      | [] => msg = "No rows to delete in Google Sheet." ∧ order = []
      | hs :: data_rows =>
          if decide (data_rows = []) then
            msg = "No rows to delete in Google Sheet." ∧ order = []
          else if decide ("User Email" ∈ hs ∧ "Job Link" ∈ hs) then
            if decide (Exists (pair_in_row hs u_email link) data_rows) then
              msg = "Deleted from Google Sheet." ∧ order ≠ []
            else msg = "No matching row found in Google Sheet." ∧ order = []
          else msg = "Required columns not found in Google Sheet." ∧ order = []
      end
    ∧ StronglySorted (λ a b, (b < a)%nat) order
    ∧ (∀ i, i ∈ order ↔
         (2 ≤ i)%nat ∧ ∃ hs row, sheet w !! 0%nat = Some hs
           ∧ sheet w !! (i - 1)%nat = Some row
           ∧ pair_in_row hs u_email link row)
    ∧ sheet (exec (for_each order sheet_delete_rows) w) =
        match sheet w with
        | [] => []
        | hs :: data_rows =>
            hs :: filter (λ row, ¬ pair_in_row hs u_email link row) data_rows
        end
    ∧ (order = [] → exec (for_each order sheet_delete_rows) w = w).
Proof.
  intros Hup. unfold delete_job_from_google_sheets, try_except.
  rewrite (bind_returns _ _ _ _ _ (open_sheet1_up w Hup)).
  rewrite (bind_returns _ _ _ _ _ (sheet_get_all_values_up w Hup)).
  pose proof (nothing_to_remove u_email link w) as Hnoop.
  destruct (sheet w) as [|hs [|row0 rest]] eqn:Hsh.
  - exists "No rows to delete in Google Sheet.", []. split; [done|].
    split; [done|]. by apply Hnoop.
  - exists "No rows to delete in Google Sheet.", []. split; [done|].
    split; [done|]. apply Hnoop. constructor.
  - set (rs := row0 :: rest) in *.
    destruct (decide (rs = [])) as [|_]; [done|].
    destruct (column_of "User Email" hs) as [uc|] eqn:Huc; cycle 1.
    { exists "Required columns not found in Google Sheet.", [].
      apply column_of_None in Huc. split; [done|].
      split; [case_decide as Hin; [by destruct Hin|done]|].
      apply Hnoop, Forall_forall. intros row _ Hp.
      by apply pair_in_row_columns in Hp as [? _]. }
    destruct (column_of "Job Link" hs) as [jc|] eqn:Hjc; cycle 1.
    { exists "Required columns not found in Google Sheet.", [].
      apply column_of_None in Hjc. split; [done|].
      split; [case_decide as Hin; [by destruct Hin|done]|].
      apply Hnoop, Forall_forall. intros row _ Hp.
      by apply pair_in_row_columns in Hp as [_ ?]. }
    apply column_of_Some in Huc as (cu & -> & Hcu).
    apply column_of_Some in Hjc as (cl & -> & Hcl).
    assert ("User Email" ∈ hs ∧ "Job Link" ∈ hs) as Hcols.
    { apply index_of_Some in Hcu as [Hu _]. apply index_of_Some in Hcl as [Hl _].
      split; eapply list_elem_of_lookup_2; eassumption. }
    destruct (decide ("User Email" ∈ hs ∧ "Job Link" ∈ hs)) as [_|]; [|done].
    pose proof (collect_rows_filter (S cu) (S cl) u_email link 2 rs) as Hnone.
    pose proof (collect_rows_ascending (S cu) (S cl) u_email link 2 rs) as Hasc.
    pose proof (λ i, elem_of_collected hs rs cu cl u_email link i Hcu Hcl)
      as Hmem.
    pose proof (delete_collected (S cu) (S cl) u_email link [hs] rs 2 eq_refl)
      as Hdel.
    destruct (collect_rows (S cu) (S cl) u_email link 2 rs) as [|j js] eqn:Hc.
    + exists "No matching row found in Google Sheet.", []. split; [done|].
      assert (Forall (λ row, ¬ pair_in_row hs u_email link row) rs) as Hall.
      { eapply Forall_impl; [by apply Hnone|]. intros row Hrow Hp.
        apply (row_matches_pair_in_row hs cu cl) in Hp; [|done..].
        simpl in Hrow. congruence. }
      split; [|by apply Hnoop].
      case_decide as Hex; [|done].
      apply Exists_exists in Hex as (row & Hin & Hp).
      rewrite Forall_forall in Hall. by destruct (Hall row Hin).
    + rewrite <- Hc in *. clear Hnone.
      set (order := collect_rows (S cu) (S cl) u_email link 2 rs) in *.
      rewrite (sorted_reverse_ascending order Hasc).
      exists "Deleted from Google Sheet.", (reverse order).
      rewrite (bind_returns _ _ _ _ _ (for_each_sheet_delete_rows_up _ w Hup)).
      unfold exec. rewrite (for_each_sheet_delete_rows_up _ w Hup).
      split; [done|]. split.
      { assert (reverse order ≠ []) as Hne.
        { intros Hr. apply (f_equal reverse) in Hr.
          rewrite reverse_involutive, Hc in Hr. done. }
        case_decide as Hex; [done|]. exfalso. apply Hex.
        assert (j ∈ order) as Hj by (rewrite Hc; left).
        apply Hmem in Hj as (Hj2 & hs' & row & [= <-] & Hrow & Hp).
        apply Exists_exists. exists row. split; [|done].
        destruct (j - 1)%nat as [|k] eqn:Hk; [lia|].
        by eapply list_elem_of_lookup_2. }
      split; [by apply reverse_ascending|].
      split; [intros i; by rewrite elem_of_reverse, Hmem|].
      split.
      * simpl. rewrite Hsh. simpl in Hdel. rewrite Hdel. f_equal.
        apply list_filter_iff. intros row.
        rewrite <- (row_matches_pair_in_row hs cu cl) by done.
        by destruct (row_matches _ _ _ _ row).
      * intros Hr. apply (f_equal reverse) in Hr.
        rewrite reverse_involutive, Hc in Hr. done.
Qed.

Lemma delete_job_from_google_sheets_exact_witness :
  ∃ msg order,
    delete_job_from_google_sheets "a@x.com" "http://job/1" world2
      = (Return msg, exec (for_each order sheet_delete_rows) world2)
    ∧ StronglySorted (λ a b, (b < a)%nat) order
    ∧ sheet (exec (for_each order sheet_delete_rows) world2)
      = [headers;
         ["a@x.com"; "http://job/2"; ""; ""; ""; ""; ""; ""; ""; "0"; ""; "0"]].
Proof.
  destruct (delete_job_from_google_sheets_exact "a@x.com" "http://job/1"
              world2 eq_refl) as (msg & order & Hrun & _ & Hs & _ & Hsh & _).
  exists msg, order. split; [done|]. split; [done|].
  rewrite Hsh. vm_compute. reflexivity.
Defined.

(** ** Deleting a job application *)


(** ** Registration and login *)

Lemma unique_emails_empty : unique_emails empty_table.
Proof.
  intros i j r1 r2 Hi. unfold empty_table in Hi. cbn [rows] in Hi.
  by rewrite lookup_empty in Hi.
Qed.

Lemma insert_user_spec (r : UserRow) w :
  ((∃ i r', rows (users w) !! i = Some r' ∧ email r' = email r) ∧
   insert_user r w
   = (Raise (IntegrityError "UNIQUE constraint failed: users.email"), w))
  ∨ ((∀ i r', rows (users w) !! i = Some r' → email r' ≠ email r) ∧
     insert_user r w = (Return tt, set_users (insert_row r) w)).
Proof.
  unfold insert_user.
  destruct (fetchone _) as [[i r']|] eqn:Hf.
  - left. apply fetchone_select_where_Some in Hf as [Hi He].
    apply bool_decide_eq_true in He. eauto.
  - right. split; [|done]. intros i r' Hi.
    rewrite fetchone_select_where_None in Hf.
    specialize (Hf i r' Hi). by apply bool_decide_eq_false in Hf.
Qed.

(** The UNIQUE constraint holds of every table an insert was made into. *)
Lemma insert_user_unique_emails (r : UserRow) w :
  unique_emails (users w) → unique_emails (users (exec (insert_user r) w)).
Proof.
  intros Huniq. unfold exec.
  destruct (insert_user_spec r w) as [[_ ->]|[Hfresh ->]]; [done|].
  intros i j r1 r2. simpl users. rewrite !insert_row_lookup.
  intros [[-> ->]|Hi] [[-> ->]|Hj] He; [done| | |by eapply Huniq].
  - by destruct (Hfresh j r2 Hj).
  - by destruct (Hfresh i r1 Hi).
Qed.

Section Credentials.
Context `{!Libraries}.

Lemma gensalt_spec w :
  ∃ salt w1, gensalt w = (Return salt, w1) ∧ store w1 = store w.
Proof. unfold gensalt. destruct (salts w); eauto. Qed.

Lemma register_user_valid em password w :
  validators_email em = true → 8 ≤ len password →
  ∃ salt t w1 w2,
    gensalt w = (Return salt, w1) ∧ utcnow w1 = (Return t, w2)
    ∧ store w2 = store w
    ∧ register_user em password w =
      match insert_user {| email := em;
                           password_hash := bcrypt_hashpw password salt;
                           user_created_at := isoformat t |} w2 with
      | (Return _, w') => (Return "Registration successful!", w')
      | (Raise (IntegrityError _), w') =>
          (Return "Email already registered.", w')
      | (Raise e, w') => (Raise e, w')
      end.
Proof.
  intros Hv Hlen. unfold register_user. rewrite Hv. cbn [negb].
  destruct (len password <? 8) eqn:Hl; [apply Z.ltb_lt in Hl; lia|].
  cbv iota.
  destruct (gensalt_spec w) as (salt & w1 & Hsalt & Hs1).
  destruct (utcnow_spec w1) as (t & w2 & Ht & Hs2 & _).
  exists salt, t, w1, w2. split; [done|]. split; [done|].
  split; [congruence|].
  rewrite (bind_returns _ _ _ _ _ Hsalt). unfold try_except_IntegrityError.
  rewrite (bind_returns _ _ _ _ _ Ht). rewrite run_bind.
  by destruct (insert_user _ w2) as [[[]|[]] w'].
Qed.

Lemma register_user_unique_emails em password w :
  unique_emails (users w) →
  unique_emails (users (exec (register_user em password) w)).
Proof.
  intros Huniq. unfold exec.
  destruct (validators_email em) eqn:Hv; cycle 1.
  { unfold register_user. by rewrite Hv. }
  destruct (decide (8 ≤ len password)) as [Hlen|Hlen]; cycle 1.
  { unfold register_user. rewrite Hv. simpl.
    destruct (len password <? 8) eqn:Hl; [done|]. apply Z.ltb_ge in Hl. lia. }
  destruct (register_user_valid em password w Hv Hlen)
    as (salt & t & w1 & w2 & _ & _ & Hst & ->).
  assert (unique_emails (users w2)) as Huniq2.
  { injection Hst as -> _ _. done. }
  pose proof (insert_user_unique_emails
    {| email := em; password_hash := bcrypt_hashpw password salt;
       user_created_at := isoformat t |} w2 Huniq2) as Hins.
  unfold exec in Hins. by destruct (insert_user _ w2) as [[[]|[]] w'].
Qed.



End Credentials.



(** ** Listing the job applications of a user *)


(** ** The current profile *)

Lemma latest_profile_None u_email (t : Table ProfileRow) :
  latest_profile u_email t = None ↔
  ∀ j r, rows t !! j = Some r → profile_user_email r ≠ VStr u_email.
Proof.
  unfold latest_profile. rewrite fetchone_order_by_id_desc_None.
  set (P := λ r, bool_decide (profile_user_email r = VStr u_email)).
  rewrite <- (head_None (select_where P t)).
  change (head (select_where P t)) with (fetchone (select_where P t)).
  rewrite fetchone_select_where_None. unfold P.
  by setoid_rewrite bool_decide_eq_false.
Qed.




(** ** Updating a job application *)



(** * Further properties of the backend *)

(** ** The reset of the store *)

(** After [init_db] the three tables are empty, whatever they held, and the
    worksheet is what it was: nobody can log in, nobody has a profile or a
    job application. *)
Lemma init_db_resets `{!Libraries} (w : World) :
  let w' := exec init_db w in
  run init_db w = Return tt
  ∧ store w' = (empty_table, empty_table, empty_table)
  ∧ sheet w' = sheet w
  ∧ (∀ em password,
       run (login_user em password) w'
       = Return "No account found with that email.")
  ∧ (∀ u_email, run (get_profile u_email) w' = Return ∅)
  ∧ (∀ u_email, run (get_user_applications u_email) w' = Return [])
  ∧ (∀ u_email link, run (job_exists_for_user u_email link) w' = Return false).
Proof. intros w'. split_and!; reflexivity. Qed.

(** ** Registration, then login *)

Section CredentialsMore.
Context `{!Libraries}.

Lemma login_user_stored em password i r w :
  unique_emails (users w) →
  rows (users w) !! i = Some r → email r = em →
  login_user em password w
  = (Return (if bcrypt_checkpw password (password_hash r)
             then "Login successful!" else "Incorrect password."), w).
Proof.
  intros Huniq Hi He. unfold login_user.
  set (P := λ r, bool_decide (email r = em)).
  assert (fetchone (select_where P (users w)) = Some (i, r)) as Hf.
  { destruct (fetchone (select_where P (users w))) as [[j r']|] eqn:Hf.
    - apply fetchone_select_where_Some in Hf as [Hj He'].
      apply bool_decide_eq_true in He'.
      assert (i = j) as -> by (eapply Huniq; [done..|congruence]).
      congruence.
    - rewrite fetchone_select_where_None in Hf. specialize (Hf i r Hi).
      apply bool_decide_eq_false in Hf. done. }
  rewrite (bind_returns _ _ w (Some (i, r)) w)
    by (unfold get; cbv beta; fold P; by rewrite Hf).
  by destruct (bcrypt_checkpw _ _).
Qed.

Lemma register_user_new em password w :
  validators_email em = true → 8 ≤ len password →
  (∀ i r, rows (users w) !! i = Some r → email r ≠ em) →
  ∃ salt t w',
    run gensalt w = Return salt
    ∧ register_user em password w = (Return "Registration successful!", w')
    ∧ store w' =
        (insert_row {| email := em;
                       password_hash := bcrypt_hashpw password salt;
                       user_created_at := isoformat t |} (users w),
         user_profiles w, job_applications w).
Proof.
  intros Hv Hlen Hnew.
  destruct (register_user_valid em password w Hv Hlen)
    as (salt & t & w1 & w2 & Hsalt & _ & Hst & ->).
  set (row := {| email := em |}).
  injection Hst as Hu Hp Hj.
  destruct (insert_user_spec row w2) as [[(i & r & Hi & He) _]|[_ ->]].
  - rewrite Hu in Hi. by destruct (Hnew i r Hi).
  - exists salt, t. eexists. unfold run. rewrite Hsalt.
    split; [done|]. split; [done|]. unfold store. simpl.
    by rewrite Hu, Hp, Hj.
Qed.

(** X1. A user who registered can log in: when the registration of a new
    email goes through and bcrypt accepts the password against the hash it
    made of it, the login with the same password succeeds right after, and a
    password bcrypt rejects against that hash gets the incorrect-password
    message. *)
Theorem register_then_login (em password salt : string) (w : World) :
  unique_emails (users w) →
  validators_email em = true → 8 ≤ len password →
  (∀ i r, rows (users w) !! i = Some r → email r ≠ em) →
  run gensalt w = Return salt →
  bcrypt_checkpw password (bcrypt_hashpw password salt) = true →
  let w' := exec (register_user em password) w in
  run (register_user em password) w = Return "Registration successful!"
  ∧ run (login_user em password) w' = Return "Login successful!"
  ∧ ∀ other,
      bcrypt_checkpw other (bcrypt_hashpw password salt) = false →
      run (login_user em other) w' = Return "Incorrect password.".
Proof.
  intros Huniq Hv Hlen Hnew Hsalt Hcheck w'.
  pose proof (register_user_unique_emails em password w Huniq) as Huniq'.
  destruct (register_user_new em password w Hv Hlen Hnew)
    as (salt' & t & w1 & Hsalt' & Hreg & Hst).
  assert (salt' = salt) as -> by congruence.
  subst w'. unfold run, exec in *. rewrite Hreg in *. cbn [fst snd] in *.
  injection Hst as Hu _ _.
  set (row := {| email := em;
                 password_hash := bcrypt_hashpw password salt;
                 user_created_at := isoformat t |}) in *.
  assert (rows (users w1) !! next_rowid (users w) = Some row) as Hrow.
  { rewrite Hu. apply lookup_insert_eq. }
  split; [done|]. split.
  - rewrite (login_user_stored em password _ row w1 Huniq' Hrow eq_refl).
    simpl. by rewrite Hcheck.
  - intros other Hother.
    rewrite (login_user_stored em other _ row w1 Huniq' Hrow eq_refl).
    simpl. by rewrite Hother.
Qed.

End CredentialsMore.

Lemma register_then_login_witness :
  let w := set_salts ["$2b$12$abcdefghijk"] empty_world in
  let w' := exec (register_user (H:=toy_libraries) "a@x.com" "longpassword")
              w in
  run (login_user (H:=toy_libraries) "a@x.com" "longpassword") w'
    = Return "Login successful!"
  ∧ run (login_user (H:=toy_libraries) "a@x.com" "shortpassword") w'
    = Return "Incorrect password.".
Proof.
  intros w w'.
  destruct (register_then_login (H:=toy_libraries) "a@x.com" "longpassword"
              "$2b$12$abcdefghijk" w) as (_ & Hin & Hout).
  - apply unique_emails_empty.
  - reflexivity.
  - vm_compute. discriminate.
  - intros i r Hi. unfold w in Hi.
    cbn [rows users set_salts empty_world empty_table] in Hi.
    by rewrite lookup_empty in Hi.
  - reflexivity.
  - vm_compute. reflexivity.
  - split; [exact Hin|]. apply Hout. vm_compute. reflexivity.
Defined.

(** ** What the calls do to the store *)

Section TableSteps.
Context {R : Type}.
Implicit Types (t : Table R).

Lemma max_rowid_nonneg (m : gmap Z R) : 0 ≤ max_rowid m.
Proof.
  unfold max_rowid.
  apply (map_fold_weak_ind (λ acc _, 0 ≤ acc)); [done|]. intros. lia.
Qed.

Lemma next_rowid_above t i r :
  rows t !! i = Some r → i < next_rowid t.
Proof. intros Hi. apply max_rowid_ge in Hi. unfold next_rowid. lia. Qed.

Lemma next_rowid_within t : ids_within t → next_rowid t = seq t + 1.
Proof.
  intros [Hseq Hin]. unfold next_rowid.
  assert (max_rowid (rows t) ≤ seq t) as Hle; [|lia].
  unfold max_rowid.
  apply (map_fold_weak_ind
           (λ acc m, (∀ i r, m !! i = Some r → i ≤ seq t) → acc ≤ seq t));
    [intros _; lia| |].
  - intros i x m acc Hi IH Hall.
    assert (i ≤ seq t) by (apply (Hall i x), lookup_insert_eq).
    assert (acc ≤ seq t); [|lia].
    apply IH. intros j r Hj. apply (Hall j r).
    rewrite lookup_insert_ne; [done|]. intros ->. congruence.
  - intros i r Hi. by apply (Hin i r).
Qed.

Lemma ids_within_empty : ids_within (@empty_table R).
Proof.
  split; [done|]. intros i r Hi. cbn [rows empty_table] in Hi.
  by rewrite lookup_empty in Hi.
Qed.

Lemma ids_within_insert_row (r : R) t :
  ids_within t → ids_within (insert_row r t).
Proof.
  intros Hin. pose proof (next_rowid_within t Hin) as Hnext.
  destruct Hin as [Hseq Hin]. unfold ids_within. cbn [seq insert_row].
  split; [lia|]. intros i x. rewrite insert_row_lookup.
  intros [[-> _]|Hi]; [lia|]. specialize (Hin i x Hi). lia.
Qed.

Lemma ids_within_update_by_id (f : R → R) j t :
  ids_within t → ids_within (update_by_id f j t).
Proof.
  intros [Hseq Hin]. split; [done|].
  intros i x. cbn [rows seq update_by_id]. rewrite lookup_alter.
  case_decide; [|apply Hin]. subst.
  destruct (rows t !! i) as [y|] eqn:Hy; [|done]. intros _. by apply (Hin i y).
Qed.

Lemma ids_within_delete_by_id j t :
  ids_within t → ids_within (delete_by_id j t).
Proof.
  intros [Hseq Hin]. split; [done|].
  intros i x. cbn [rows seq delete_by_id]. rewrite lookup_delete.
  case_decide; [done|]. apply Hin.
Qed.

End TableSteps.

Section StoreSteps.
Context `{!Libraries}.

Lemma register_user_store em password w :
  store (exec (register_user em password) w) = store w
  ∨ ∃ r, store (exec (register_user em password) w)
         = (insert_row r (users w), user_profiles w, job_applications w).
Proof.
  unfold exec.
  destruct (validators_email em) eqn:Hv; cycle 1.
  { left. unfold register_user. by rewrite Hv. }
  destruct (decide (8 ≤ len password)) as [Hlen|Hlen]; cycle 1.
  { left. unfold register_user. rewrite Hv. cbn [negb].
    destruct (len password <? 8) eqn:Hl; [done|]. apply Z.ltb_ge in Hl. lia. }
  destruct (register_user_valid em password w Hv Hlen)
    as (salt & t & w1 & w2 & _ & _ & Hst & ->).
  set (row := {| email := em |}).
  destruct (insert_user_spec row w2) as [[_ ->]|[_ ->]]; [by left|].
  right. exists row. injection Hst as Hu Hp Hj. unfold store. simpl.
  by rewrite Hu, Hp, Hj.
Qed.

Lemma login_user_world em password w : exec (login_user em password) w = w.
Proof.
  unfold exec, login_user. rewrite run_bind. unfold get.
  destruct (fetchone _) as [[i r]|]; [|done].
  by destruct (bcrypt_checkpw _ _).
Qed.

Lemma get_profile_world u_email w : exec (get_profile u_email) w = w.
Proof.
  unfold exec, get_profile. rewrite run_bind. unfold get.
  by destruct (latest_profile _ _) as [[i r]|].
Qed.

Lemma save_profile_spec (data : gmap string value) w :
  match data !! "user_email" with
  | None => save_profile data w = (Raise (KeyError "user_email"), w)
  | Some u =>
      ∃ t w1,
        utcnow w = (Return t, w1)
        ∧ save_profile data w
          = (Return "Profile saved locally.",
             set_user_profiles (insert_row
               {| profile_user_email := u;
                  first_name := get_val data "first_name" (VStr "");
                  last_name := get_val data "last_name" (VStr "");
                  address := get_val data "address" (VStr "");
                  city := get_val data "city" (VStr "");
                  mobile_number := get_val data "mobile_number" (VStr "");
                  github_url := get_val data "github_url" (VStr "");
                  job_position := get_val data "job_position" (VStr "");
                  experience_months :=
                    get_val data "experience_months" (VInt 0);
                  skills := get_val data "skills" (VStr "");
                  preferred_locations :=
                    get_val data "preferred_locations" (VStr "");
                  profile_created_at := isoformat t |}) w1)
  end.
Proof.
  unfold save_profile, getitem.
  destruct (data !! "user_email") as [u|]; [|done].
  destruct (utcnow_spec w) as (t & w1 & Ht & _).
  exists t, w1. split; [done|].
  by rewrite bind_ret_l, (bind_returns _ _ _ _ _ Ht).
Qed.

Lemma save_job_application_missing (data : gmap string string) w :
  data !! "user_email" = None →
  ∃ w1, save_job_application data w = (Raise (KeyError "user_email"), w1)
    ∧ store w1 = store w ∧ sheet w1 = sheet w ∧ faults w1 = faults w
    ∧ stdout w1 = stdout w.
Proof.
  intros Hu. unfold save_job_application, getitem. rewrite Hu.
  unfold utcnow. rewrite run_bind.
  destruct (clock w); eexists; (split; [reflexivity|done]).
Qed.

Lemma save_job_application_store data w :
  store (exec (save_job_application data) w) = store w
  ∨ ∃ r, store (exec (save_job_application data) w)
         = (users w, user_profiles w, insert_row r (job_applications w)).
Proof.
  unfold exec. destruct (data !! "user_email") as [u|] eqn:Hu.
  - destruct (save_job_application_spec data u w Hu) as (t & w' & -> & Hst).
    right. eauto.
  - destruct (save_job_application_missing data w Hu) as (w1 & -> & Hst & _).
    by left.
Qed.

Lemma delete_job_application_by_id_store job_id w :
  store (exec (delete_job_application_by_id job_id) w)
  = (users w, user_profiles w,
     delete_by_id job_id (job_applications w))
  ∨ store (exec (delete_job_application_by_id job_id) w) = store w.
Proof.
  unfold exec. destruct (rows (job_applications w) !! job_id) as [r|] eqn:Hr.
  - destruct (delete_job_application_by_id_found job_id r w Hr)
      as (s & w2 & _ & -> & Hst).
    by left.
  - right. unfold delete_job_application_by_id.
    by rewrite (bind_returns _ _ w None w) by (unfold get; by rewrite Hr).
Qed.

Lemma keeps_store_clear_google_sheet_rows :
  keeps_store clear_google_sheet_rows.
Proof. unfold clear_google_sheet_rows. auto 10 with frame. Qed.

Lemma consistent_store w w' : store w' = store w → consistent w → consistent w'.
Proof.
  unfold consistent. intros [= Hu Hp Hj]. by rewrite Hu, Hp, Hj.
Qed.

Lemma update_profile_store u_email data w :
  store (exec (update_profile u_email data) w)
  = (users w,
     match latest_profile u_email (user_profiles w) with
     | Some (i, _) =>
         update_by_id (set_profile_fields data) i (user_profiles w)
     | None => user_profiles w
     end,
     job_applications w).
Proof. reflexivity. Qed.

Lemma consistent_init_db w : consistent (exec init_db w).
Proof.
  unfold consistent. cbn [exec init_db users user_profiles job_applications].
  split_and!; [apply unique_emails_empty|apply ids_within_empty..].
Qed.

Lemma consistent_perform (c : Call) w : consistent w → consistent (perform c w).
Proof.
  intros Hc. destruct c; cbn [perform].
  - apply consistent_init_db.
  - (* register_user *)
    pose proof (register_user_unique_emails em password w) as Huniq.
    destruct Hc as (Hu & Hiu & Hip & Hij).
    destruct (register_user_store em password w) as [Hst|[r Hst]].
    + by apply (consistent_store w).
    + specialize (Huniq Hu). injection Hst as Hu' Hp' Hj'.
      unfold consistent. rewrite Hp', Hj'. split_and!; try done.
      rewrite Hu'. by apply ids_within_insert_row.
  - by rewrite login_user_world.
  - (* save_profile *)
    pose proof (save_profile_spec data w) as Hs. unfold exec.
    destruct (data !! "user_email") as [u|].
    + destruct Hs as (t & w1 & Ht & ->).
      destruct (utcnow_spec w) as (t' & w1' & Ht' & Hst & _).
      assert (w1' = w1) as -> by congruence. injection Hst as Hu Hp Hj.
      destruct Hc as (? & ? & ? & ?). unfold consistent.
      cbn [snd users user_profiles job_applications set_user_profiles].
      rewrite Hu, Hp, Hj. split_and!; try done.
      by apply ids_within_insert_row.
    + by rewrite Hs.
  - by rewrite get_profile_world.
  - (* update_profile *)
    pose proof (update_profile_store u_email data w) as Hst.
    apply pair_equal_spec in Hst as [Hst Hj].
    apply pair_equal_spec in Hst as [Hu Hp]. destruct Hc as (? & ? & ? & ?).
    unfold consistent. rewrite Hu, Hp, Hj. split_and!; try done.
    destruct (latest_profile u_email (user_profiles w)) as [[i r]|]; [|done].
    by apply ids_within_update_by_id.
  - done.
  - (* save_job_application *)
    destruct (save_job_application_store data w) as [Hst|[r Hst]].
    + by apply (consistent_store w).
    + injection Hst as Hu Hp Hj. destruct Hc as (? & ? & ? & ?).
      unfold consistent. rewrite Hu, Hp, Hj. split_and!; try done.
      by apply ids_within_insert_row.
  - done.
  - (* update_job_application *)
    destruct Hc as (? & ? & ? & ?). unfold consistent.
    cbn [exec update_job_application users user_profiles job_applications].
    split_and!; try done. by apply ids_within_update_by_id.
  - (* delete_job_application_by_id *)
    destruct (delete_job_application_by_id_store job_id w) as [Hst|Hst].
    + injection Hst as Hu Hp Hj. destruct Hc as (? & ? & ? & ?).
      unfold consistent. rewrite Hu, Hp, Hj. split_and!; try done.
      by apply ids_within_delete_by_id.
    + by apply (consistent_store w).
  - apply (consistent_store w); [|done].
    apply keeps_store_clear_google_sheet_rows.
Qed.

Lemma consistent_calls (calls : list Call) w :
  consistent w → consistent (foldl (λ w c, perform c w) w calls).
Proof.
  revert w. induction calls as [|c calls IH]; intros w Hc; [done|].
  simpl. by apply IH, consistent_perform.
Qed.

(** X2. Whatever the store held before, after [init_db] and any sequence of
    calls of the backend functions, with any arguments and whatever the
    transport does, no two users have the same email, and in each of the
    three tables every rowid is at least 1 and at most the AUTOINCREMENT
    counter of the table. *)
Theorem backend_keeps_store_consistent (calls : list Call) (w : World) :
  let w' := foldl (λ w c, perform c w) (exec init_db w) calls in
  (∀ i j r1 r2, rows (users w') !! i = Some r1 →
     rows (users w') !! j = Some r2 → email r1 = email r2 → i = j)
  ∧ (∀ i r, rows (users w') !! i = Some r → 1 ≤ i ≤ seq (users w'))
  ∧ (∀ i r, rows (user_profiles w') !! i = Some r →
       1 ≤ i ≤ seq (user_profiles w'))
  ∧ (∀ i r, rows (job_applications w') !! i = Some r →
       1 ≤ i ≤ seq (job_applications w')).
Proof.
  intros w'.
  destruct (consistent_calls calls (exec init_db w) (consistent_init_db w))
    as (Hu & [_ Hiu] & [_ Hip] & [_ Hij]).
  done.
Qed.

End StoreSteps.

(** ** Job applications: ids, missing keys, round trips *)

Section JobsMore.
Context `{!Libraries}.

(** X3. A deleted id is not handed out again: when the ids of
    job_applications are within the counter and a stored job is deleted,
    the next job saved gets the id after the counter, which is larger than
    the deleted one, and the deleted id stays free. *)
Theorem deleted_job_id_not_reused (job_id : Z) (r : JobRow)
    (data : gmap string string) (u : string) (w : World) :
  ids_within (job_applications w) →
  rows (job_applications w) !! job_id = Some r →
  data !! "user_email" = Some u →
  let w1 := exec (delete_job_application_by_id job_id) w in
  let w2 := exec (save_job_application data) w1 in
  let i := seq (job_applications w) + 1 in
  job_id < i
  ∧ rows (job_applications w2) !! job_id = None
  ∧ (user_email <$> rows (job_applications w2) !! i) = Some u
  ∧ seq (job_applications w2) = i.
Proof.
  intros Hin Hr Hu w1 w2 i.
  destruct (delete_job_application_by_id_found job_id r w Hr)
    as (s & w1' & _ & Hd & Hst1).
  assert (job_applications w1 = delete_by_id job_id (job_applications w))
    as Hj1.
  { subst w1. unfold exec. rewrite Hd. by injection Hst1. }
  destruct (save_job_application_spec data u w1 Hu) as (t & w2' & Hs & Hst2).
  assert (job_applications w2
          = insert_row (job_row_of u data (isoformat t)) (job_applications w1))
    as Hj2.
  { subst w2. unfold exec. rewrite Hs. by injection Hst2. }
  assert (ids_within (job_applications w1)) as Hin1.
  { rewrite Hj1. by apply ids_within_delete_by_id. }
  pose proof (next_rowid_within _ Hin1) as Hnext.
  rewrite Hj1 in Hnext at 2. cbn [seq delete_by_id] in Hnext. fold i in Hnext.
  destruct Hin as [_ Hin]. specialize (Hin job_id r Hr).
  split; [lia|]. rewrite Hj2. cbn [rows seq insert_row]. rewrite Hnext.
  split_and!; [|by rewrite lookup_insert_eq|done].
  rewrite lookup_insert_ne by lia. rewrite Hj1. apply lookup_delete_eq.
Qed.

(** X4. Missing keys. A dict without user_email makes both definitions of
    [save_job_application] raise KeyError on that key with the store left
    as it was, the second one after it read the clock. A dict with a
    user_email and no job_link makes the first definition raise KeyError on
    job_link and leave the world as it was, while the second definition
    saves the job, with the empty string as its link. *)
Theorem save_job_application_missing_keys (data : gmap string string)
    (w : World) :
  (data !! "user_email" = None →
     save_job_application_guarded data w = (Raise (KeyError "user_email"), w)
     ∧ run (save_job_application data) w = Raise (KeyError "user_email")
     ∧ store (exec (save_job_application data) w) = store w
     ∧ sheet (exec (save_job_application data) w) = sheet w
     ∧ stdout (exec (save_job_application data) w) = stdout w)
  ∧ (∀ u, data !! "user_email" = Some u → data !! "job_link" = None →
     save_job_application_guarded data w = (Raise (KeyError "job_link"), w)
     ∧ run (save_job_application data) w
       = Return "Job application saved successfully!"
     ∧ (job_link <$>
          rows (job_applications (exec (save_job_application data) w))
            !! next_rowid (job_applications w)) = Some "").
Proof.
  split.
  - intros Hu.
    destruct (save_job_application_missing data w Hu)
      as (w1 & Hs & Hst & Hsh & _ & Hout).
    unfold run, exec. rewrite Hs. split_and!; try done.
    unfold save_job_application_guarded, getitem. by rewrite Hu.
  - intros u Hu Hl.
    destruct (save_job_application_spec data u w Hu) as (t & w' & Hs & Hst).
    unfold run, exec. rewrite Hs. cbn [fst snd]. split_and!; try done.
    + unfold save_job_application_guarded, getitem. by rewrite Hu, Hl.
    + injection Hst as _ _ ->. cbn [rows insert_row].
      rewrite lookup_insert_eq. cbn. unfold get_str. by rewrite Hl.
Qed.

(** X5. Saving a job and deleting it again by the id it got leaves the rows
    of job_applications as they were before the two calls. *)
Theorem save_then_delete_restores_rows (data : gmap string string)
    (u : string) (w : World) :
  data !! "user_email" = Some u →
  let i := next_rowid (job_applications w) in
  let w1 := exec (save_job_application data) w in
  let w2 := exec (delete_job_application_by_id i) w1 in
  is_Some (rows (job_applications w1) !! i)
  ∧ rows (job_applications w2) = rows (job_applications w)
  ∧ users w2 = users w ∧ user_profiles w2 = user_profiles w.
Proof.
  intros Hu i w1 w2.
  destruct (save_job_application_spec data u w Hu) as (t & w1' & Hs & Hst1).
  assert (w1 = w1') as Hw1 by (subst w1; unfold exec; by rewrite Hs).
  injection Hst1 as Hu1 Hp1 Hj1. rewrite <- Hw1 in Hu1, Hp1, Hj1.
  assert (rows (job_applications w1) !! i
          = Some (job_row_of u data (isoformat t))) as Hi.
  { rewrite Hj1. apply lookup_insert_eq. }
  destruct (delete_job_application_by_id_found i _ w1 Hi)
    as (s & w2' & _ & Hd & Hst2).
  assert (store w2 = store w2') as Hw2
    by (subst w2; unfold exec; by rewrite Hd).
  rewrite Hst2 in Hw2. injection Hw2 as -> -> ->.
  split; [by rewrite Hi|]. split; [|done].
  rewrite Hj1. cbn [rows delete_by_id insert_row].
  rewrite delete_insert_eq. apply delete_id, next_rowid_fresh.
Qed.

End JobsMore.

(** ** Lists after an insert *)

Section ListingFacts.
Context {R : Type}.
Implicit Types (t : Table R) (P : R → bool).

Lemma NoDup_select_where P t : NoDup (select_where P t).
Proof. eapply NoDup_fmap_1, NoDup_fst_select_where. Qed.

(** The rows a query gives after an insert: the new row, when it passes the
    test, before the rows the query gave. *)
Lemma order_by_id_desc_insert_row P (r : R) t :
  order_by_id_desc (select_where P (insert_row r t))
  = (if P r then [(next_rowid t, r)] else [])
    ++ order_by_id_desc (select_where P t).
Proof.
  set (new := if P r then [(next_rowid t, r)] else []).
  assert (∀ x, x ∈ new ↔ x = (next_rowid t, r) ∧ P r = true) as Hnew.
  { intros x. unfold new. destruct (P r).
    - rewrite list_elem_of_singleton. tauto.
    - rewrite elem_of_nil. split; [done|]. by intros [_ ?]. }
  assert (∀ x, x ∈ order_by_id_desc (select_where P (insert_row r t)) ↔
               x ∈ new ++ order_by_id_desc (select_where P t)) as Hmem.
  { intros [i x]. rewrite elem_of_app, Hnew, !elem_of_order_by_id_desc.
    rewrite !elem_of_select_where, insert_row_lookup. split.
    - intros [[[-> ->]|Hi] HP]; [left|right]; done.
    - intros [[[= -> ->] HP]|[Hi HP]]; (split; [|done]); [by left|by right]. }
  assert (∀ x, x ∈ order_by_id_desc (select_where P t) →
               x.1 < next_rowid t) as Hold.
  { intros [i x] Hx.
    rewrite elem_of_order_by_id_desc, elem_of_select_where in Hx.
    destruct Hx as [Hi _].
    by apply (next_rowid_above t i x). }
  apply (StronglySorted_unique_strong id_ge).
  - intros [i x] [j y] Hx Hy Hij Hji. unfold id_ge in *. simpl in *.
    assert (i = j) as -> by lia. apply Hmem in Hy.
    rewrite elem_of_order_by_id_desc, elem_of_select_where in Hx, Hy.
    destruct Hx as [Hx _], Hy as [Hy _]. congruence.
  - apply order_by_id_desc_sorted.
  - apply StronglySorted_app_2; [|unfold new; destruct (P r);
                                   repeat constructor
                                 |apply order_by_id_desc_sorted].
    intros x y Hx Hy. apply Hnew in Hx as [-> _]. apply Hold in Hy.
    unfold id_ge. simpl. lia.
  - apply NoDup_Permutation; [| |done].
    + unfold order_by_id_desc. rewrite merge_sort_Permutation.
      apply NoDup_select_where.
    + apply NoDup_app. split_and!.
      * unfold new. destruct (P r); [apply NoDup_singleton|apply NoDup_nil_2].
      * intros x Hx Hy. apply Hnew in Hx as [-> _]. apply Hold in Hy.
        simpl in Hy. lia.
      * unfold order_by_id_desc. rewrite merge_sort_Permutation.
        apply NoDup_select_where.
Qed.

End ListingFacts.

Section ListingMore.
Context `{!Libraries}.

(** X6. After a job is saved the list of its user begins with the dict of
    the new job, under the id the job got, and goes on as the list before;
    the list of any other user is what it was. *)
Theorem saved_job_heads_the_list (data : gmap string string) (u : string)
    (w : World) :
  data !! "user_email" = Some u →
  let w' := exec (save_job_application data) w in
  ∃ t apps,
    run (get_user_applications u) w = Return apps
    ∧ run (get_user_applications u) w'
      = Return (job_dict (next_rowid (job_applications w))
                  (job_row_of u data (isoformat t)) :: apps)
    ∧ ∀ v, v ≠ u →
        run (get_user_applications v) w' = run (get_user_applications v) w.
Proof.
  intros Hu w'.
  destruct (save_job_application_spec data u w Hu) as (t & w1 & Hs & Hst).
  assert (job_applications w'
          = insert_row (job_row_of u data (isoformat t)) (job_applications w))
    as Hj.
  { subst w'. unfold exec. rewrite Hs. by injection Hst. }
  exists t. eexists. split; [reflexivity|].
  unfold run, get_user_applications, get. rewrite !run_bind. cbn [fst].
  rewrite Hj. split.
  - rewrite order_by_id_desc_insert_row. cbn [user_email job_row_of].
    by rewrite bool_decide_eq_true_2.
  - intros v Hv. rewrite !run_bind. cbn [fst].
    rewrite Hj, order_by_id_desc_insert_row. cbn [user_email job_row_of].
    by rewrite bool_decide_eq_false_2.
Qed.

End ListingMore.

(** ** The current profile: round trips *)

Lemma profile_dict_nonempty r : profile_dict r ≠ ∅.
Proof.
  intros He. assert (profile_dict r !! "first_name" = None) as Hn
    by (by rewrite He). by vm_compute in Hn.
Qed.



Section ProfilesMore.
Context `{!Libraries}.

Lemma get_profile_run u_email w :
  run (get_profile u_email) w
  = Return match latest_profile u_email (user_profiles w) with
           | Some (_, r) => profile_dict r
           | None => ∅
           end.
Proof.
  unfold run, get_profile. rewrite run_bind. unfold get.
  by destruct (latest_profile _ _) as [[i r]|].
Qed.

(** X7. [get_profile] gives the empty dict exactly for the users without a
    row in user_profiles, which is what the request layer relies on when it
    tests the dict for truth. *)
Theorem get_profile_empty_iff (u_email : string) (w : World) :
  run (get_profile u_email) w = Return ∅ ↔
  ∀ i r, rows (user_profiles w) !! i = Some r →
    profile_user_email r ≠ VStr u_email.
Proof.
  rewrite get_profile_run, <- latest_profile_None.
  destruct (latest_profile _ _) as [[i r]|]; [|done]. split; [|done].
  intros He. exfalso. apply (profile_dict_nonempty r). congruence.
Qed.



End ProfilesMore.

(** * Further properties of the mirror *)

(** ** A transport that is up stays up *)

Section KeepsUp.
Context {A B : Type}.

Lemma keeps_up_ret (a : A) : keeps_up (mret a).
Proof. by intros w Hup. Qed.

Lemma keeps_up_raise e : keeps_up (raise e : M A).
Proof. by intros w Hup. Qed.

Lemma keeps_up_get (f : World → A) : keeps_up (get f).
Proof. by intros w Hup. Qed.

Lemma keeps_up_bind (m : M A) (f : A → M B) :
  keeps_up m → (∀ a, keeps_up (f a)) → keeps_up (m ≫= f).
Proof.
  intros Hm Hf w Hup. specialize (Hm w Hup). unfold exec in *.
  rewrite run_bind. destruct (m w) as [[a|e] w']; [|done]. by apply Hf.
Qed.

Lemma keeps_up_try_except (m : M A) (h : exn → M A) :
  keeps_up m → (∀ e, keeps_up (h e)) → keeps_up (try_except m h).
Proof.
  intros Hm Hh w Hup. specialize (Hm w Hup). unfold exec, try_except in *.
  destruct (m w) as [[a|e] w']; [done|]. by apply Hh.
Qed.

End KeepsUp.

Lemma keeps_up_print line : keeps_up (print line).
Proof. by intros w Hup. Qed.

Lemma keeps_up_utcnow : keeps_up utcnow.
Proof. intros w Hup. unfold exec, utcnow. by destruct (clock w). Qed.

Lemma keeps_up_transport : keeps_up transport.
Proof. intros w Hup. unfold exec. by rewrite transport_up_run. Qed.

Lemma keeps_up_set_sheet f : keeps_up (modify (set_sheet f)).
Proof. by intros w Hup. Qed.

Create HintDb up discriminated.
#[export] Hint Resolve keeps_up_ret keeps_up_raise keeps_up_get keeps_up_print
  keeps_up_utcnow keeps_up_transport keeps_up_set_sheet : up.
#[export] Hint Extern 2 (keeps_up (_ ≫= _)) =>
  apply keeps_up_bind; [|intros ?] : up.
#[export] Hint Extern 2 (keeps_up (try_except _ _)) =>
  apply keeps_up_try_except; [|intros ?] : up.
#[export] Hint Extern 3 (keeps_up (match ?x with _ => _ end)) =>
  destruct x : up.
#[export] Hint Extern 3 (keeps_up (if ?x then _ else _)) =>
  destruct x : up.

Lemma keeps_up_open_sheet1 : keeps_up open_sheet1.
Proof. unfold open_sheet1. auto with up. Qed.

Lemma keeps_up_sheet_get_all_values : keeps_up sheet_get_all_values.
Proof. unfold sheet_get_all_values. auto with up. Qed.

Lemma keeps_up_sheet_append_row row : keeps_up (sheet_append_row row).
Proof. unfold sheet_append_row. auto with up. Qed.

Lemma keeps_up_sheet_clear : keeps_up sheet_clear.
Proof. unfold sheet_clear. auto with up. Qed.

#[export] Hint Resolve keeps_up_open_sheet1 keeps_up_sheet_get_all_values
  keeps_up_sheet_append_row keeps_up_sheet_clear : up.

Lemma keeps_up_for_each {A} (l : list A) (body : A → M unit) :
  (∀ x, keeps_up (body x)) → keeps_up (for_each l body).
Proof. intros Hb. induction l; simpl; auto with up. Qed.

Section MirrorUp.
Context `{!Libraries}.

Lemma keeps_up_append_job_to_google_sheets data created_iso :
  keeps_up (append_job_to_google_sheets data created_iso).
Proof. unfold append_job_to_google_sheets. auto 30 with up. Qed.

Lemma keeps_up_clear_google_sheet_rows : keeps_up clear_google_sheet_rows.
Proof. unfold clear_google_sheet_rows. auto 30 with up. Qed.

End MirrorUp.

Lemma set_sheet_const (f : list (list string) → list (list string)) v w :
  f (sheet w) = v → set_sheet f w = set_sheet (λ _, v) w.
Proof. intros Hf. unfold set_sheet. by rewrite Hf. Qed.

Lemma set_sheet_same w : set_sheet (λ _, sheet w) w = w.
Proof. by destruct w. Qed.

(** The mirror delete on a sheet with data rows and both headers. *)
Lemma delete_job_from_google_sheets_up u_email link hs rs cu cl w :
  transport_up w → sheet w = hs :: rs → rs ≠ [] →
  index_of "User Email" hs = Some cu → index_of "Job Link" hs = Some cl →
  delete_job_from_google_sheets u_email link w
  = (Return (if decide (Exists (pair_in_row hs u_email link) rs)
             then "Deleted from Google Sheet."
             else "No matching row found in Google Sheet."),
     set_sheet (λ _,
       hs :: filter (λ row, ¬ pair_in_row hs u_email link row) rs) w).
Proof.
  intros Hup Hsh Hrs Hcu Hcl.
  unfold delete_job_from_google_sheets, try_except.
  rewrite (bind_returns _ _ _ _ _ (open_sheet1_up w Hup)).
  rewrite (bind_returns _ _ _ _ _ (sheet_get_all_values_up w Hup)).
  rewrite Hsh. destruct rs as [|row0 rest]; [done|].
  set (rs := row0 :: rest) in *.
  unfold column_of. rewrite Hcu, Hcl. cbn [fmap option_fmap option_map].
  pose proof (collect_rows_filter (S cu) (S cl) u_email link 2 rs) as Hnone.
  pose proof (collect_rows_ascending (S cu) (S cl) u_email link 2 rs) as Hasc.
  pose proof (delete_collected (S cu) (S cl) u_email link [hs] rs 2 eq_refl)
    as Hdel.
  assert (filter (λ row, row_matches (S cu) (S cl) u_email link row = false) rs
          = filter (λ row, ¬ pair_in_row hs u_email link row) rs) as Hfilter.
  { apply list_filter_iff. intros row.
    rewrite <- (row_matches_pair_in_row hs cu cl) by done.
    by destruct (row_matches _ _ _ _ row). }
  rewrite Hfilter in Hdel.
  destruct (collect_rows (S cu) (S cl) u_email link 2 rs) as [|j js] eqn:Hc.
  - assert (Forall (λ row, ¬ pair_in_row hs u_email link row) rs) as Hall.
    { eapply Forall_impl; [by apply Hnone|]. intros row Hrow Hp.
      apply (row_matches_pair_in_row hs cu cl) in Hp; [|done..].
      simpl in Hrow. congruence. }
    rewrite filter_all by done. rewrite <- Hsh, set_sheet_same.
    case_decide as Hex; [|done].
    apply Exists_exists in Hex as (row & Hin & Hp).
    rewrite Forall_forall in Hall. by destruct (Hall row Hin).
  - rewrite <- Hc in *.
    set (order := collect_rows (S cu) (S cl) u_email link 2 rs) in *.
    rewrite (sorted_reverse_ascending order Hasc).
    rewrite (bind_returns _ _ _ _ _ (for_each_sheet_delete_rows_up _ w Hup)).
    rewrite (set_sheet_const _
      (hs :: filter (λ row, ¬ pair_in_row hs u_email link row) rs))
      by (by rewrite Hsh).
    case_decide as Hex; [done|]. exfalso. apply Hex.
    assert (j ∈ order) as Hj by (rewrite Hc; left).
    apply elem_of_collect_rows in Hj as (k & row & _ & Hk & Hm).
    apply Exists_exists. exists row.
    split; [by eapply list_elem_of_lookup_2|].
    by apply (row_matches_pair_in_row hs cu cl).
Qed.

Lemma delete_job_from_google_sheets_no_columns u_email link hs rs w :
  transport_up w → sheet w = hs :: rs → rs ≠ [] →
  "User Email" ∉ hs ∨ "Job Link" ∉ hs →
  delete_job_from_google_sheets u_email link w
  = (Return "Required columns not found in Google Sheet.", w).
Proof.
  intros Hup Hsh Hrs Hcols.
  unfold delete_job_from_google_sheets, try_except.
  rewrite (bind_returns _ _ _ _ _ (open_sheet1_up w Hup)).
  rewrite (bind_returns _ _ _ _ _ (sheet_get_all_values_up w Hup)).
  rewrite Hsh. destruct rs as [|row0 rest]; [done|].
  destruct Hcols as [Hc|Hc]; apply column_of_None in Hc; rewrite Hc;
    [done|]. by destruct (column_of "User Email" hs).
Qed.

Lemma delete_job_from_google_sheets_short u_email link w :
  transport_up w → (length (sheet w) ≤ 1)%nat →
  delete_job_from_google_sheets u_email link w
  = (Return "No rows to delete in Google Sheet.", w).
Proof.
  intros Hup Hlen.
  unfold delete_job_from_google_sheets, try_except.
  rewrite (bind_returns _ _ _ _ _ (open_sheet1_up w Hup)).
  rewrite (bind_returns _ _ _ _ _ (sheet_get_all_values_up w Hup)).
  destruct (sheet w) as [|hs [|row0 rest]]; [done..|]. simpl in Hlen. lia.
Qed.

(** ** Appends, deletes and resets of the mirror, one after another *)

Section MirrorMore.
Context `{!Libraries}.

(** The row the mirror append writes for a dict. *)
Lemma appended_row_pair data days created_iso hs :
  index_of "User Email" hs = Some 0%nat →
  index_of "Job Link" hs = Some 1%nat →
  pair_in_row hs (get_str data "user_email") (get_str data "job_link")
    [ get_str data "user_email"; get_str data "job_link";
      get_str data "company_name"; get_str data "job_role";
      get_str data "job_location"; get_str data "status";
      get_str data "recruiter_name"; get_str data "recruiter_email";
      get_str data "recruiter_phone"; days;
      get_str data "comments"; created_iso ].
Proof. intros Hu Hl. by exists 0%nat, 1%nat. Qed.

(** X10. Once an append has gone through with the transport up, a later
    append keeps every row of the sheet and adds one row at the end: the
    header is rewritten at most by the first append. *)
Theorem append_after_append_keeps_rows
    (data1 data2 : gmap string string) (iso1 iso2 : string) (t1 t2 : Z)
    (w : World) :
  transport_up w →
  fromisoformat iso1 = Some t1 → fromisoformat iso2 = Some t2 →
  let w1 := exec (append_job_to_google_sheets data1 iso1) w in
  let w2 := exec (append_job_to_google_sheets data2 iso2) w1 in
  run (append_job_to_google_sheets data2 iso2) w1
    = Return "Job appended to Google Sheets."
  ∧ ∃ row, sheet w2 = sheet w1 ++ [row]
      ∧ row !! 0%nat = Some (get_str data2 "user_email")
      ∧ row !! 1%nat = Some (get_str data2 "job_link").
Proof.
  intros Hup Hiso1 Hiso2 w1 w2.
  destruct (append_job_to_google_sheets_up data1 iso1 t1 w Hup Hiso1)
    as (t & w1' & Hrun1 & Hsheet1).
  assert (w1 = w1') as Hw1 by (subst w1; unfold exec; by rewrite Hrun1).
  assert (transport_up w1) as Hup1
    by (by apply keeps_up_append_job_to_google_sheets).
  destruct (append_job_to_google_sheets_up data2 iso2 t2 w1 Hup1 Hiso2)
    as (t' & w2' & Hrun2 & Hsheet2).
  assert (w2 = w2') as Hw2 by (subst w2; unfold exec; by rewrite Hrun2).
  split; [unfold run; by rewrite Hrun2|].
  assert (∃ first_row rest, sheet w1 = first_row :: rest
            ∧ header_ok first_row) as (first_row & rest & Hs1 & Hok).
  { rewrite Hw1, Hsheet1. destruct (sheet w) as [|first_row rest].
    - do 2 eexists. split; reflexivity.
    - destruct (decide (header_ok first_row)) as [Hok|Hno].
      + do 2 eexists. split; [reflexivity|done].
      + do 2 eexists. split; reflexivity. }
  rewrite Hs1 in Hsheet2. rewrite decide_True in Hsheet2 by done.
  eexists. rewrite Hw2, Hsheet2, Hs1. split; [reflexivity|done].
Qed.

(** X11. On a sheet that is empty, or has the canonical header row and no
    row with the pair of the dict, the mirror append followed by the mirror
    delete of that pair (transport up) gives the deletion message and leaves
    the header row and the rows the sheet had. *)
Theorem append_then_mirror_delete (data : gmap string string)
    (created_iso : string) (created_dt : Z) (w : World) :
  transport_up w → fromisoformat created_iso = Some created_dt →
  match sheet w with
  | [] => True
  | hs :: rest =>
      hs = headers
      ∧ Forall (λ row, ¬ pair_in_row headers (get_str data "user_email")
                         (get_str data "job_link") row) rest
  end →
  let w1 := exec (append_job_to_google_sheets data created_iso) w in
  let w2 := exec (delete_job_from_google_sheets (get_str data "user_email")
                    (get_str data "job_link")) w1 in
  length (sheet w1) = S (length (headers :: tail (sheet w)))
  ∧ run (delete_job_from_google_sheets (get_str data "user_email")
           (get_str data "job_link")) w1
    = Return "Deleted from Google Sheet."
  ∧ sheet w2 = headers :: tail (sheet w).
Proof.
  intros Hup Hiso Hsheet w1 w2.
  destruct (append_job_to_google_sheets_up data created_iso created_dt w
              Hup Hiso) as (t & w1' & Hrun1 & Hsheet1).
  assert (w1 = w1') as Hw1 by (subst w1; unfold exec; by rewrite Hrun1).
  assert (transport_up w1) as Hup1
    by (by apply keeps_up_append_job_to_google_sheets).
  rewrite <- Hw1 in Hsheet1.
  set (row := [ get_str data "user_email"; _; _; _; _; _; _; _; _; _; _; _ ])
    in Hsheet1.
  assert (pair_in_row headers (get_str data "user_email")
            (get_str data "job_link") row) as Hrow
    by (by apply appended_row_pair).
  assert (sheet w1 = headers :: (tail (sheet w) ++ [row])
          ∧ Forall (λ r, ¬ pair_in_row headers (get_str data "user_email")
                           (get_str data "job_link") r) (tail (sheet w)))
    as [Hs1 Hrest].
  { rewrite Hsheet1. destruct (sheet w) as [|hs rest]; [done|].
    destruct Hsheet as [-> Hrest]. by rewrite decide_True by reflexivity. }
  pose proof (delete_job_from_google_sheets_up (get_str data "user_email")
    (get_str data "job_link") headers (tail (sheet w) ++ [row]) 0 1 w1
    Hup1 Hs1) as Hdel.
  rewrite decide_True in Hdel
    by (apply Exists_exists; exists row; split; [set_solver|done]).
  rewrite filter_app, filter_all, filter_cons_False, filter_nil, app_nil_r
    in Hdel by (done || by intros Hn; apply Hn).
  assert (tail (sheet w) ++ [row] ≠ []) as Hne
    by (by destruct (tail (sheet w))).
  specialize (Hdel Hne eq_refl eq_refl).
  subst w2. unfold run, exec. rewrite Hdel. split_and!; [|done..].
  rewrite Hs1. simpl. rewrite length_app. simpl. lia.
Qed.

(** X12. The append and the delete of the mirror read the header row in two
    ways. A first row the append accepts (its first twelve cells are the
    canonical names up to surrounding whitespace) in which no cell is
    exactly "User Email" or none exactly "Job Link", say because a name is
    padded with blanks, makes every later mirror delete report that the
    required columns are missing and remove nothing, also for the pair of
    the row that has just been appended. *)
Theorem padded_header_blocks_mirror_delete (data : gmap string string)
    (created_iso : string) (created_dt : Z) (first_row : list string)
    (rest : list (list string)) (u_email link : string) (w : World) :
  transport_up w → fromisoformat created_iso = Some created_dt →
  sheet w = first_row :: rest →
  strip <$> take 12 first_row = headers →
  "User Email" ∉ first_row ∨ "Job Link" ∉ first_row →
  let w1 := exec (append_job_to_google_sheets data created_iso) w in
  run (append_job_to_google_sheets data created_iso) w
    = Return "Job appended to Google Sheets."
  ∧ (∃ row, sheet w1 = first_row :: rest ++ [row])
  ∧ delete_job_from_google_sheets u_email link w1
    = (Return "Required columns not found in Google Sheet.", w1).
Proof.
  intros Hup Hiso Hsh Hok Hcols w1.
  destruct (append_job_to_google_sheets_up data created_iso created_dt w
              Hup Hiso) as (t & w1' & Hrun1 & Hsheet1).
  assert (w1 = w1') as Hw1 by (subst w1; unfold exec; by rewrite Hrun1).
  assert (transport_up w1) as Hup1
    by (by apply keeps_up_append_job_to_google_sheets).
  rewrite <- Hw1, Hsh in Hsheet1. rewrite decide_True in Hsheet1 by done.
  split; [unfold run; by rewrite Hrun1|]. split; [by eexists|].
  eapply delete_job_from_google_sheets_no_columns; [done|exact Hsheet1| |done].
  by destruct rest.
Qed.

Lemma bind_raises {A B} (m : M A) (f : A → M B) w e w' :
  m w = (Raise e, w') → (m ≫= f) w = (Raise e, w').
Proof. intros Hm. by rewrite run_bind, Hm. Qed.

Lemma transport_through w fs :
  faults w = None :: fs → transport w = (Return tt, set_faults fs w).
Proof. unfold transport. by intros ->. Qed.

Lemma transport_fails w msg fs :
  faults w = Some msg :: fs →
  transport w = (Raise (TransportError msg), set_faults fs w).
Proof. unfold transport. by intros ->. Qed.

Lemma open_sheet1_through w fs :
  faults w = None :: None :: None :: fs →
  open_sheet1 w = (Return tt, set_faults fs w).
Proof.
  intros Hf. unfold open_sheet1.
  rewrite (bind_returns _ _ _ _ _ (transport_through w _ Hf)).
  rewrite (bind_returns _ _ _ _ _
    (transport_through (set_faults (None :: None :: fs) w) (None :: fs)
       eq_refl)).
  by rewrite (transport_through (set_faults (None :: fs) _) fs eq_refl).
Qed.

(** X13. A failure between the clearing of the sheet and the rewriting of the
    header loses the sheet: when the first row fails the header test and the
    transport raises at the call that appends the header row, after five
    calls that went through, the append gives the failure message with the
    error, the sheet is left with no row, and the store is untouched. *)
Theorem append_failure_after_clear_loses_sheet (data : gmap string string)
    (created_iso msg : string) (first_row : list string)
    (rest : list (list string)) (fs : list (option string)) (w : World) :
  sheet w = first_row :: rest →
  strip <$> take 12 first_row ≠ headers →
  faults w = [None; None; None; None; None; Some msg] ++ fs →
  let w' := exec (append_job_to_google_sheets data created_iso) w in
  run (append_job_to_google_sheets data created_iso) w
    = Return ("Failed to append job to Google Sheets: " +:+ msg)
  ∧ sheet w' = []
  ∧ store w' = store w
  ∧ faults w' = fs.
Proof.
  intros Hsh Hno Hf w'.
  assert (header_mismatch first_row = true) as Hm.
  { destruct (header_mismatch first_row) eqn:Hm; [done|].
    by apply header_mismatch_false in Hm. }
  assert (append_job_to_google_sheets data created_iso w
          = (Return ("Failed to append job to Google Sheets: " +:+ msg),
             set_stdout (λ out, out ++ ["Google Sheets error: " +:+ msg])
               (set_sheet (λ _, []) (set_faults fs w)))) as Hrun.
  { unfold append_job_to_google_sheets, try_except.
    rewrite (bind_returns _ _ _ _ _ (open_sheet1_through w _ Hf)).
    unfold sheet_get_all_values.
    rewrite (bind_returns _ _ _ (sheet w)
               (set_faults (None :: Some msg :: fs) w))
      by (by rewrite (bind_returns _ _ _ _ _
                (transport_through
                   (set_faults (None :: None :: Some msg :: fs) w)
                   (None :: Some msg :: fs) eq_refl))).
    rewrite Hsh, Hm. unfold sheet_clear, sheet_append_row.
    set (w4 := set_faults (None :: Some msg :: fs) w).
    assert ((sheet_clear;; sheet_append_row headers) w4
            = (Raise (TransportError msg),
               set_sheet (λ _, []) (set_faults fs w))) as Hstep.
    { unfold sheet_clear, sheet_append_row.
      rewrite (bind_returns _ _ _ tt
                 (set_sheet (λ _, []) (set_faults (Some msg :: fs) w)))
        by (by rewrite (bind_returns _ _ _ _ _
                  (transport_through w4 (Some msg :: fs) eq_refl))).
      by rewrite (bind_raises _ _ _ _ _
           (transport_fails
              (set_sheet (λ _, []) (set_faults (Some msg :: fs) w)) msg fs
              eq_refl)). }
    by rewrite (bind_raises _ _ _ _ _ Hstep). }
  subst w'. unfold run, exec. by rewrite Hrun.
Qed.

Lemma clear_google_sheet_rows_run_up w :
  transport_up w →
  clear_google_sheet_rows w
  = (Return tt,
     set_stdout (λ out, out ++ ["Google Sheet cleared and headers re-added."])
       (set_sheet (λ s, s ++ [headers]) (set_sheet (λ _, []) w))).
Proof.
  intros Hup. unfold clear_google_sheet_rows, try_except.
  rewrite (bind_returns _ _ _ _ _ (open_sheet1_up w Hup)).
  rewrite (bind_returns _ _ _ _ _ (sheet_clear_up w Hup)).
  by rewrite (bind_returns _ _ _ _ _
       (sheet_append_row_up headers (set_sheet (λ _, []) w) Hup)).
Qed.

(** X14. With the transport up the reset leaves the sheet with the canonical
    header row and nothing else, the store untouched; a mirror delete right
    after finds nothing to delete, and a mirror append right after puts its
    row under the header row. *)
Theorem clear_google_sheet_rows_up (w : World) :
  transport_up w →
  let w' := exec clear_google_sheet_rows w in
  run clear_google_sheet_rows w = Return tt
  ∧ sheet w' = [headers]
  ∧ store w' = store w
  ∧ (∀ u_email link,
       delete_job_from_google_sheets u_email link w'
       = (Return "No rows to delete in Google Sheet.", w'))
  ∧ (∀ data created_iso created_dt,
       fromisoformat created_iso = Some created_dt →
       ∃ row, sheet (exec (append_job_to_google_sheets data created_iso) w')
              = [headers; row]).
Proof.
  intros Hup w'.
  pose proof (clear_google_sheet_rows_run_up w Hup) as Hrun.
  assert (transport_up w') as Hup'
    by (by apply keeps_up_clear_google_sheet_rows).
  assert (sheet w' = [headers]) as Hsh
    by (subst w'; unfold exec; by rewrite Hrun).
  split; [unfold run; by rewrite Hrun|]. split; [done|].
  split; [subst w'; unfold exec; by rewrite Hrun|]. split.
  - intros u_email link. apply delete_job_from_google_sheets_short; [done|].
    by rewrite Hsh.
  - intros data created_iso created_dt Hiso.
    destruct (append_job_to_google_sheets_up data created_iso created_dt w'
                Hup' Hiso) as (t & w2 & Hrun2 & Hsheet2).
    eexists. unfold exec. rewrite Hrun2. cbn [snd]. rewrite Hsheet2, Hsh.
    by rewrite decide_True by reflexivity.
Qed.

(** X15. The reset script never fails: whatever the world and whatever the
    transport does, it ends without an exception and with the three tables
    empty; with the transport up the sheet holds the header row alone, and
    when the transport raises at its first call the sheet is what it was. *)
Theorem clear_users_main_resets (w : World) :
  let w' := exec clear_users_main w in
  run clear_users_main w = Return tt
  ∧ store w' = (empty_table, empty_table, empty_table)
  ∧ (transport_up w → sheet w' = [headers])
  ∧ (∀ msg fs, faults w = Some msg :: fs → sheet w' = sheet w).
Proof.
  intros w'. set (w0 := exec (init_db;; print "Database fully cleared and reinitialized.") w).
  assert (store w0 = (empty_table, empty_table, empty_table)) as Hst0 by done.
  assert (sheet w0 = sheet w ∧ faults w0 = faults w) as [Hsh0 Hf0] by done.
  assert (clear_users_main w
          = try_except
              (clear_google_sheet_rows;;
               print "Google Sheet cleared and headers re-added.")
              (λ e, print ("Failed to clear Google Sheet: " +:+ exn_str e)) w0)
    as Hmain by done.
  assert (keeps_store (try_except
              (clear_google_sheet_rows;;
               print "Google Sheet cleared and headers re-added.")
              (λ e, print ("Failed to clear Google Sheet: " +:+ exn_str e))))
    as Hkeep.
  { apply keeps_store_try_except; [|auto with frame].
    apply keeps_store_bind; [|auto with frame].
    apply keeps_store_clear_google_sheet_rows. }
  assert (never_raises (try_except
              (clear_google_sheet_rows;;
               print "Google Sheet cleared and headers re-added.")
              (λ e, print ("Failed to clear Google Sheet: " +:+ exn_str e))))
    as Hnever.
  { apply never_raises_try_except. intros e. apply never_raises_print. }
  destruct (surely _ w0 Hnever Hkeep) as ([] & w1 & Hrun & Hst1).
  subst w'. unfold run, exec. rewrite Hmain, Hrun. cbn [fst snd].
  split; [done|]. split; [congruence|]. split.
  - intros Hup. assert (transport_up w0) as Hup0
      by (unfold transport_up in *; congruence).
    revert Hrun. unfold try_except. rewrite run_bind.
    rewrite (clear_google_sheet_rows_run_up w0 Hup0).
    by intros [= <-].
  - intros msg fs Hf. rewrite <- Hsh0. rewrite <- Hf0 in Hf.
    revert Hrun. unfold try_except, clear_google_sheet_rows, open_sheet1.
    rewrite !run_bind. unfold try_except. rewrite !run_bind.
    unfold transport at 1. rewrite Hf. cbn. by intros [= <-].
Qed.

End MirrorMore.

(** * Properties of the request layer *)

Section FrontendFacts.
Context `{!Libraries, !Builtins}.

(** X16. Every view behind the login (dashboard, job_details, applications,
    delete_job, profile) answers a client without a user in its session
    with a redirect to the login page and the message to log in first, and
    leaves the world as it was, whatever the request. *)
Theorem views_require_login (req : Request) (job_id : Z) (c : Client)
    (w : World) :
  session c !! "user" = None →
  let refused := (Return (Redirect "login", flash "Please log in first!" c), w)
  in
  dashboard req c w = refused
  ∧ job_details req c w = refused
  ∧ applications c w = refused
  ∧ delete_job job_id c w = refused
  ∧ profile c w = refused.
Proof.
  intros Hs refused.
  unfold dashboard, job_details, applications, delete_job, profile,
    login_required.
  by rewrite Hs.
Qed.



End FrontendFacts.

Section FrontendJobs.
Context `{!Libraries, !Builtins}.

Lemma job_form_data_keys user f :
  job_form_data user f !! "user_email" = Some user
  ∧ job_form_data user f !! "job_link" = Some (get_str f "job_link").
Proof. split; reflexivity. Qed.

Lemma job_exists_for_user_false u link w :
  run (job_exists_for_user u link) w = Return false ↔
  ∀ i r, rows (job_applications w) !! i = Some r →
    ¬ (user_email r = u ∧ job_link r = link).
Proof.
  destruct (job_exists_for_user_pure u link w) as [b Hb].
  pose proof (job_exists_for_user_true u link w) as Ht.
  unfold run in *. rewrite Hb in *. cbn [fst] in *. split.
  - intros [= ->] i r Hi [Hu Hl].
    assert (Return false = Return true) as Hn; [|done].
    apply Ht. by exists i, r.
  - intros Hno. destruct b; [|done]. destruct Ht as [Ht _].
    destruct (Ht eq_refl) as (i & r & Hi & Hu & Hl).
    by destruct (Hno i r Hi).
Qed.

(** What a POST to job_details does for a client that is logged in. *)
Lemma job_details_post req user c w :
  method req = "POST" → session c !! "user" = Some user →
  let link := get_str (form req) "job_link" in
  (run (job_exists_for_user user link) w = Return true
   ∧ job_details req c w
     = (Return (Render "job_details.html"
          (SuccessMessage "Duplicate Job Link! Record not added."), c), w))
  ∨ (run (job_exists_for_user user link) w = Return false
     ∧ ∃ t w',
         job_details req c w
         = (Return (Render "job_details.html"
              (SuccessMessage "Form filled successfully!"), c), w')
         ∧ store w'
           = (users w, user_profiles w,
              insert_row (job_row_of user (job_form_data user (form req))
                            (isoformat t)) (job_applications w))).
Proof.
  intros Hm Hs link. unfold job_details, login_required. rewrite Hs, Hm.
  rewrite bool_decide_eq_true_2 by done.
  destruct (job_form_data_keys user (form req)) as [Hu Hl].
  unfold getitem. rewrite Hu, Hl, !bind_ret_l.
  destruct (job_exists_for_user_pure user link w) as [b Hb].
  fold link. rewrite (bind_returns _ _ _ _ _ Hb). unfold run. rewrite Hb.
  destruct b; [by left|]. right. split; [done|].
  destruct (save_job_application_spec _ user w Hu) as (t & w' & Hsave & Hst).
  exists t, w'. by rewrite (bind_returns _ _ _ _ _ Hsave).
Qed.

(** X18. Through the job form a link is stored once per user. For a client
    that is logged in, a POST whose job_link the user already has is
    answered with the duplicate message and changes nothing; any other POST
    stores the job with the fields of the form under the user of the
    session, and the same POST again is then refused as a duplicate. *)
Theorem job_details_refuses_duplicates (req : Request) (user : string)
    (c : Client) (w : World) :
  method req = "POST" → session c !! "user" = Some user →
  let link := get_str (form req) "job_link" in
  let duplicate :=
    Render "job_details.html"
      (SuccessMessage "Duplicate Job Link! Record not added.") in
  ((∃ i r, rows (job_applications w) !! i = Some r
      ∧ user_email r = user ∧ job_link r = link) →
   job_details req c w = (Return (duplicate, c), w))
  ∧ ((∀ i r, rows (job_applications w) !! i = Some r →
        ¬ (user_email r = user ∧ job_link r = link)) →
     ∃ t w',
       job_details req c w
       = (Return (Render "job_details.html"
            (SuccessMessage "Form filled successfully!"), c), w')
       ∧ rows (job_applications w')
         = <[next_rowid (job_applications w) :=
              {| user_email := user; job_link := link;
                 company_name := get_str (form req) "company_name";
                 job_role := get_str (form req) "job_role";
                 job_location := get_str (form req) "job_location";
                 status := get_str (form req) "status";
                 recruiter_name := get_str (form req) "recruiter_name";
                 recruiter_email := get_str (form req) "recruiter_email";
                 recruiter_phone := get_str (form req) "recruiter_phone";
                 comments := get_str (form req) "comments";
                 created_at := isoformat t |}]> (rows (job_applications w))
       ∧ job_details req c w' = (Return (duplicate, c), w')).
Proof.
  intros Hm Hs link duplicate. split.
  - intros Hex.
    pose proof (proj2 (job_exists_for_user_true user link w) Hex) as Hex'.
    destruct (job_details_post req user c w Hm Hs) as [[_ Hd]|[Hf _]];
      [done|]. fold link in Hf. congruence.
  - intros Hno.
    pose proof (proj2 (job_exists_for_user_false user link w) Hno) as Hno'.
    destruct (job_details_post req user c w Hm Hs)
      as [[Ht _]|(_ & t & w' & Hrun & Hst)];
      [fold link in Ht; congruence|].
    exists t, w'. split; [done|]. injection Hst as _ _ Hj. split.
    + by rewrite Hj.
    + destruct (job_details_post req user c w' Hm Hs) as [[_ Hd]|[Hf _]];
        [done|].
      pose proof (proj1 (job_exists_for_user_false _ _ _) Hf) as Hf'.
      exfalso.
      apply (Hf' (next_rowid (job_applications w))
               (job_row_of user (job_form_data user (form req))
                  (isoformat t))); [|done].
      rewrite Hj. apply lookup_insert_eq.
Qed.

(** X19. The job form keeps the invariant of the data model that the backend
    does not enforce: if no user has two job applications with the same
    link, that is still so after any request to job_details, from any
    client. *)
Theorem job_details_keeps_links_unique (req : Request) (c : Client)
    (w : World) :
  unique_links (job_applications w) →
  unique_links (job_applications (exec (job_details req c) w)).
Proof.
  intros Huniq. unfold exec.
  destruct (session c !! "user") as [user|] eqn:Hs; cycle 1.
  { unfold job_details, login_required. by rewrite Hs. }
  destruct (decide (method req = "POST")) as [Hm|Hm]; cycle 1.
  { unfold job_details, login_required. rewrite Hs.
    by rewrite bool_decide_eq_false_2. }
  destruct (job_details_post req user c w Hm Hs)
    as [[_ ->]|(Hf & t & w' & -> & Hst)]; [done|].
  pose proof (proj1 (job_exists_for_user_false _ _ _) Hf) as Hf'.
  clear Hf. rename Hf' into Hf. injection Hst as _ _ Hj.
  cbn [snd]. rewrite Hj. intros i j r1 r2.
  rewrite !insert_row_lookup.
  intros [[-> ->]|Hi] [[-> ->]|Hj'] Hu Hl; [done| | |by eapply Huniq].
  - destruct (Hf j r2 Hj'). split; [by rewrite <- Hu|by rewrite <- Hl].
  - by destruct (Hf i r1 Hi).
Qed.

(** X20. Deleting through the request layer asks for a session and nothing
    more: a client that is logged in, as any user, gets the job with the
    given id deleted whoever the job belongs to, is sent to the list, and
    has the message of the backend flashed. *)
Theorem delete_job_checks_no_owner (job_id : Z) (r : JobRow)
    (user : string) (c : Client) (w : World) :
  session c !! "user" = Some user →
  rows (job_applications w) !! job_id = Some r →
  ∃ sheet_msg w',
    delete_job job_id c w
    = (Return (Redirect "applications",
               flash ("Job application deleted successfully ("
                      +:+ sheet_msg +:+ ")") c), w')
    ∧ rows (job_applications w') = delete job_id (rows (job_applications w))
    ∧ users w' = users w ∧ user_profiles w' = user_profiles w.
Proof.
  intros Hs Hr. unfold delete_job, login_required. rewrite Hs.
  destruct (delete_job_application_by_id_found job_id r w Hr)
    as (msg & w2 & _ & Hd & Hst).
  exists msg. eexists. rewrite (bind_returns _ _ _ _ _ Hd).
  split; [reflexivity|]. injection Hst as Hu Hp Hj.
  cbn [users user_profiles job_applications set_stdout].
  by rewrite Hu, Hp, Hj.
Qed.

(** Logging out takes the user out of the session and keeps what else
    the session holds; the world is not touched, and the views behind the
    login refuse the client afterwards. *)
Lemma logout_ends_session (req : Request) (c : Client) (w : World) :
  ∃ c',
    logout c w = (Return (Redirect "login", c'), w)
    ∧ session c' = delete "user" (session c)
    ∧ flashes c' = flashes c ++ ["Logged out successfully."]
    ∧ dashboard req c' w
      = (Return (Redirect "login", flash "Please log in first!" c'), w)
    ∧ job_details req c' w
      = (Return (Redirect "login", flash "Please log in first!" c'), w)
    ∧ applications c' w
      = (Return (Redirect "login", flash "Please log in first!" c'), w).
Proof.
  eexists. split; [reflexivity|]. split; [done|]. split; [done|].
  unfold dashboard, job_details, applications, login_required.
  cbn [session flash]. by rewrite lookup_delete_eq.
Qed.

End FrontendJobs.

Section FrontendProfile.
Context `{!Libraries, !Builtins}.



(** X22. A POST to the dashboard whose experience_months [int] rejects raises
    ValueError before anything is stored: the world is left as it was. *)
Theorem dashboard_post_rejects_bad_months (req : Request) (user s : string)
    (c : Client) (w : World) :
  method req = "POST" → session c !! "user" = Some user →
  form req !! "experience_months" = Some s → int_of_str s = None →
  dashboard req c w
  = (Raise (ValueError
       ("invalid literal for int() with base 10: '" +:+ s +:+ "'")), w).
Proof.
  intros Hm Hs Hf Hint. unfold dashboard, login_required. rewrite Hs, Hm.
  rewrite bool_decide_eq_true_2 by done.
  pose proof (get_profile_run user w) as Hget.
  pose proof (get_profile_world user w) as Hgw. unfold run, exec in Hget, Hgw.
  destruct (get_profile user w) as [o w0] eqn:Hgp. cbn [fst snd] in Hget, Hgw.
  subst o w0. rewrite (bind_returns _ _ _ _ _ Hgp).
  unfold experience_months_of. by rewrite Hf, Hint.
Qed.

End FrontendProfile.

Section FrontendMore.
Context `{!Libraries, !Builtins}.

Lemma each_with_days_spec (apps : list (gmap string value)) w :
  Forall (λ job, ∃ s t, job !! "created_at" = Some (VStr s)
                   ∧ fromisoformat s = Some t) apps →
  ∃ apps' w',
    each_with_days apps w = (Return apps', w')
    ∧ store w' = store w ∧ sheet w' = sheet w
    ∧ Forall2 (λ app job, ∃ d, app = <["days_since_created" := VInt d]> job)
        apps' apps.
Proof.
  intros Hall. revert w.
  induction Hall as [|job apps (s & t & Hs & Ht) Hall IH]; intros w.
  - exists [], w. by split_and!.
  - destruct (utcnow_spec w) as (now & w1 & Hnow & Hst1 & _ & Hsh1).
    destruct (IH w1) as (apps' & w2 & Hrest & Hst2 & Hsh2 & Hf).
    exists (<["days_since_created" := VInt ((now - t) `div` 86400000000)]> job
            :: apps'), w2.
    split.
    + assert (with_days_since_created job w
              = (Return (<["days_since_created" :=
                            VInt ((now - t) `div` 86400000000)]> job), w1))
        as Hjob.
      { unfold with_days_since_created, getitem.
        rewrite Hs, bind_ret_l. cbv beta iota. rewrite Ht, bind_ret_l.
        by rewrite (bind_returns _ _ _ _ _ Hnow). }
      cbn [each_with_days]. rewrite (bind_returns _ _ _ _ _ Hjob).
      by rewrite (bind_returns _ _ _ _ _ Hrest).
    + split_and!; [congruence..|]. constructor; [by eexists|done].
Qed.

(** X23. For a client that is logged in, when the created_at of each of the
    user's jobs is a timestamp [fromisoformat] reads, the list page is
    rendered with exactly the jobs [get_user_applications] gives for the
    user of the session, in the same order, each with the key
    days_since_created added and nothing else changed; the store and the
    sheet are untouched. *)
Theorem applications_lists_the_users_jobs (user : string) (c : Client)
    (w : World) :
  session c !! "user" = Some user →
  (∀ i r, rows (job_applications w) !! i = Some r → user_email r = user →
     is_Some (fromisoformat (created_at r))) →
  ∃ listed shown w',
    run (get_user_applications user) w = Return listed
    ∧ applications c w
      = (Return (Render "applications.html" (JobsArg shown), c), w')
    ∧ Forall2 (λ app job, ∃ d, app = <["days_since_created" := VInt d]> job)
        shown listed
    ∧ store w' = store w ∧ sheet w' = sheet w.
Proof.
  intros Hs Hiso. unfold applications, login_required. rewrite Hs.
  set (P := λ r, bool_decide (user_email r = user)).
  set (rs := order_by_id_desc (select_where P (job_applications w))).
  assert (get_user_applications user w
          = (Return ((λ ir, job_dict ir.1 ir.2) <$> rs), w)) as Hget by done.
  assert (Forall (λ job, ∃ s t, job !! "created_at" = Some (VStr s)
                           ∧ fromisoformat s = Some t)
            ((λ ir, job_dict ir.1 ir.2) <$> rs)) as Hall.
  { apply Forall_fmap, Forall_forall. intros [i r] Hir.
    unfold rs in Hir.
    rewrite elem_of_order_by_id_desc, elem_of_select_where in Hir.
    destruct Hir as [Hi HP]. apply bool_decide_eq_true in HP.
    destruct (Hiso i r Hi HP) as [t Ht]. by exists (created_at r), t. }
  destruct (each_with_days_spec _ w Hall) as (shown & w' & Hrun & Hst & Hsh & Hf).
  exists ((λ ir, job_dict ir.1 ir.2) <$> rs), shown, w'.
  split; [unfold run; by rewrite Hget|].
  rewrite (bind_returns _ _ _ _ _ Hget), (bind_returns _ _ _ _ _ Hrun).
  by split_and!.
Qed.

(** X24. Registering and then logging in through the two views: for a new
    email that passes the validation, with a password of 8 characters or
    more that bcrypt accepts against the hash it makes of it, the POST to
    register sends the client to the login page, and the same form posted to
    login makes the email the user of the session and sends the client to
    the dashboard. *)
Theorem register_view_then_login_view (req : Request)
    (em password salt : string) (c : Client) (w : World) :
  method req = "POST" →
  form req !! "email" = Some em → form req !! "password" = Some password →
  unique_emails (users w) →
  validators_email em = true → 8 ≤ len password →
  (∀ i r, rows (users w) !! i = Some r → email r ≠ em) →
  run gensalt w = Return salt →
  bcrypt_checkpw password (bcrypt_hashpw password salt) = true →
  ∃ w1,
    register req c w
    = (Return (Redirect "login", flash "Registration successful!" c), w1)
    ∧ login req (flash "Registration successful!" c) w1
      = (Return (Redirect "dashboard",
           {| session := <["user" := em]> (session c);
              flashes := flashes c ++ ["Registration successful!";
                                       "Login successful!"] |}), w1).
Proof.
  intros Hm He Hp Huniq Hv Hlen Hnew Hsalt Hcheck.
  pose proof (register_user_unique_emails em password w Huniq) as Huniq'.
  destruct (register_user_new em password w Hv Hlen Hnew)
    as (salt' & t & w1 & Hsalt' & Hreg & Hst).
  assert (salt' = salt) as -> by congruence.
  unfold exec in Huniq'. rewrite Hreg in Huniq'. cbn [snd] in Huniq'.
  injection Hst as Hu _ _.
  set (row := {| email := em;
                 password_hash := bcrypt_hashpw password salt;
                 user_created_at := isoformat t |}) in *.
  assert (rows (users w1) !! next_rowid (users w) = Some row) as Hrow.
  { rewrite Hu. apply lookup_insert_eq. }
  exists w1. split.
  - unfold register, getitem. rewrite Hm, He, Hp.
    rewrite bool_decide_eq_true_2 by done. rewrite !bind_ret_l.
    by rewrite (bind_returns _ _ _ _ _ Hreg).
  - unfold login, getitem. rewrite Hm, He, Hp.
    rewrite bool_decide_eq_true_2 by done. rewrite !bind_ret_l.
    rewrite (bind_returns _ _ _ _ _
      (login_user_stored em password _ row w1 Huniq' Hrow eq_refl)).
    cbn [password_hash row]. rewrite Hcheck. cbn.
    by rewrite <- (assoc_L (++)).
Qed.

End FrontendMore.

(** X25. The mirror never writes to the local store: whatever the sheet holds
    and whatever the transport does, failures included, the three tables are
    the same after a mirror append, a mirror delete and a reset of the sheet
    as before. *)
Theorem mirror_never_writes_store `{!Libraries} (data : gmap string string)
    (created_iso u_email link : string) (w : World) :
  store (exec (append_job_to_google_sheets data created_iso) w) = store w
  ∧ store (exec (delete_job_from_google_sheets u_email link) w) = store w
  ∧ store (exec clear_google_sheet_rows w) = store w.
Proof.
  split_and!.
  - apply keeps_store_append_job_to_google_sheets.
  - apply keeps_store_delete_job_from_google_sheets.
  - apply keeps_store_clear_google_sheet_rows.
Qed.

(** * The further properties on concrete worlds *)

#[local] Existing Instance toy_libraries.
#[local] Existing Instance toy_builtins.

Lemma world2_rows_1 :
  rows (job_applications world2) !! 1
  = Some {| user_email := "a@x.com"; job_link := "http://job/1";
            company_name := ""; job_role := ""; job_location := "";
            status := ""; recruiter_name := ""; recruiter_email := "";
            recruiter_phone := ""; comments := ""; created_at := "0" |}.
Proof. vm_compute. reflexivity. Qed.

Lemma world2_ids_within : ids_within (job_applications world2).
Proof.
  split; [vm_compute; discriminate|].
  assert (map_Forall (λ i _, 1 ≤ i ≤ 2) (rows (job_applications world2)))
    as Hall by (apply (bool_decide_unpack _); vm_compute; exact I).
  intros i r Hi. apply (Hall i r Hi).
Qed.

Lemma deleted_job_id_not_reused_witness :
  let w1 := exec (delete_job_application_by_id 1) world2 in
  let w2 := exec (save_job_application job1) w1 in
  1 < 3
  ∧ rows (job_applications w2) !! 1 = None
  ∧ (user_email <$> rows (job_applications w2) !! 3) = Some "a@x.com"
  ∧ seq (job_applications w2) = 3.
Proof.
  apply (deleted_job_id_not_reused 1 _ job1 "a@x.com" world2
           world2_ids_within world2_rows_1).
  reflexivity.
Defined.

Lemma save_job_application_missing_keys_witness :
  run (save_job_application ∅) world2 = Raise (KeyError "user_email")
  ∧ save_job_application_guarded {[ "user_email" := "a@x.com" ]} world2
    = (Raise (KeyError "job_link"), world2).
Proof.
  destruct (save_job_application_missing_keys ∅ world2) as [Hnone _].
  destruct (save_job_application_missing_keys {[ "user_email" := "a@x.com" ]}
              world2) as [_ Hlink].
  split.
  - apply Hnone. reflexivity.
  - apply (Hlink "a@x.com"); reflexivity.
Defined.

Lemma save_then_delete_restores_rows_witness :
  rows (job_applications
          (exec (delete_job_application_by_id
                   (next_rowid (job_applications world2)))
             (exec (save_job_application job1) world2)))
  = rows (job_applications world2).
Proof.
  apply (save_then_delete_restores_rows job1 "a@x.com" world2). reflexivity.
Defined.

Lemma saved_job_heads_the_list_witness :
  ∃ t apps,
    run (get_user_applications "a@x.com") world2 = Return apps
    ∧ run (get_user_applications "a@x.com")
        (exec (save_job_application job1) world2)
      = Return (job_dict 3 (job_row_of "a@x.com" job1 (isoformat t)) :: apps).
Proof.
  destruct (saved_job_heads_the_list job1 "a@x.com" world2 eq_refl)
    as (t & apps & Hbefore & Hafter & _).
  exists t, apps. split; [exact Hbefore|]. exact Hafter.
Defined.

Lemma get_profile_empty_iff_witness :
  run (get_profile "a@x.com") world2 = Return ∅.
Proof.
  apply (get_profile_empty_iff "a@x.com" world2).
  intros i r Hi. vm_compute in Hi. discriminate.
Defined.



Lemma append_after_append_keeps_rows_witness :
  let w1 := exec (append_job_to_google_sheets job1 "0") empty_world in
  ∃ row,
    sheet (exec (append_job_to_google_sheets job1 "0") w1) = sheet w1 ++ [row]
    ∧ row !! 0%nat = Some "a@x.com" ∧ row !! 1%nat = Some "http://job/1".
Proof.
  apply (append_after_append_keeps_rows job1 job1 "0" "0" 0 0 empty_world);
    reflexivity.
Defined.

Lemma append_then_mirror_delete_witness :
  let data : gmap string string :=
    {[ "user_email" := "a@x.com"; "job_link" := "http://job/3" ]} in
  let w1 := exec (append_job_to_google_sheets data "0") world2 in
  length (sheet w1) = 4%nat
  ∧ sheet (exec (delete_job_from_google_sheets "a@x.com" "http://job/3") w1)
    = sheet world2.
Proof.
  intros data w1.
  destruct (append_then_mirror_delete data "0" 0 world2) as (Hlen & _ & Hsh).
  - reflexivity.
  - reflexivity.
  - split; [reflexivity|].
    apply (bool_decide_unpack _). vm_compute. exact I.
  - split; [exact Hlen|exact Hsh].
Defined.

Lemma padded_header_blocks_mirror_delete_witness :
  let w := set_sheet (λ _, [padded_headers; ["old row"]]) empty_world in
  let w1 := exec (append_job_to_google_sheets job1 "0") w in
  length (sheet w1) = 3%nat
  ∧ delete_job_from_google_sheets "a@x.com" "http://job/1" w1
    = (Return "Required columns not found in Google Sheet.", w1).
Proof.
  intros w w1.
  destruct (padded_header_blocks_mirror_delete job1 "0" 0 padded_headers
              [["old row"]] "a@x.com" "http://job/1" w)
    as (_ & [row Hrow] & Hdel).
  - reflexivity.
  - reflexivity.
  - reflexivity.
  - reflexivity.
  - left. apply (bool_decide_unpack _). vm_compute. exact I.
  - split; [|exact Hdel]. fold w1 in Hrow. by rewrite Hrow.
Defined.

Lemma append_failure_after_clear_loses_sheet_witness :
  let w := set_faults [None; None; None; None; None; Some "quota exceeded"]
             (set_sheet (λ _, [["Email"; "Link"]; ["a@x.com"; "http://job/0"]])
                empty_world) in
  run (append_job_to_google_sheets job1 "0") w
    = Return "Failed to append job to Google Sheets: quota exceeded"
  ∧ sheet (exec (append_job_to_google_sheets job1 "0") w) = [].
Proof.
  intros w.
  destruct (append_failure_after_clear_loses_sheet job1 "0" "quota exceeded"
              ["Email"; "Link"] [["a@x.com"; "http://job/0"]] [] w)
    as (Hrun & Hsh & _).
  - reflexivity.
  - vm_compute. discriminate.
  - reflexivity.
  - split; [exact Hrun|exact Hsh].
Defined.

Lemma clear_google_sheet_rows_up_witness :
  sheet (exec clear_google_sheet_rows world2) = [headers]
  ∧ store (exec clear_google_sheet_rows world2) = store world2.
Proof.
  destruct (clear_google_sheet_rows_up world2 eq_refl) as (_ & Hsh & Hst & _).
  split; [exact Hsh|exact Hst].
Defined.

Lemma clear_users_main_resets_witness :
  sheet (exec clear_users_main world2) = [headers]
  ∧ sheet (exec clear_users_main (set_faults [Some "no network"] world2))
    = sheet world2.
Proof.
  destruct (clear_users_main_resets world2) as (_ & _ & Hup & _).
  destruct (clear_users_main_resets (set_faults [Some "no network"] world2))
    as (_ & _ & _ & Hdown).
  split.
  - apply Hup. reflexivity.
  - apply (Hdown "no network" []). reflexivity.
Defined.

Lemma views_require_login_witness :
  job_details (post {[ "job_link" := "http://job/9" ]}) no_client world2
  = (Return (Redirect "login", flash "Please log in first!" no_client), world2)
  ∧ delete_job 1 no_client world2
    = (Return (Redirect "login", flash "Please log in first!" no_client),
       world2).
Proof.
  destruct (views_require_login (post {[ "job_link" := "http://job/9" ]}) 1
              no_client world2 eq_refl) as (_ & Hjob & _ & Hdel & _).
  split; [exact Hjob|exact Hdel].
Defined.


Lemma job_details_refuses_duplicates_witness :
  job_details (post {[ "job_link" := "http://job/1" ]}) (client_of "a@x.com")
    world2
  = (Return (Render "job_details.html"
       (SuccessMessage "Duplicate Job Link! Record not added."),
     client_of "a@x.com"), world2).
Proof.
  apply (job_details_refuses_duplicates
           (post {[ "job_link" := "http://job/1" ]}) "a@x.com"
           (client_of "a@x.com") world2 eq_refl eq_refl).
  eexists 1, _. split; [exact world2_rows_1|]. split; reflexivity.
Defined.

Lemma unique_links_empty : unique_links empty_table.
Proof.
  intros i j r1 r2 Hi. cbn [rows empty_table] in Hi.
  by rewrite lookup_empty in Hi.
Qed.

Lemma job_details_keeps_links_unique_witness :
  unique_links (job_applications
    (exec (job_details (post {[ "job_link" := "http://job/1" ]})
             (client_of "a@x.com")) empty_world)).
Proof.
  apply (job_details_keeps_links_unique
           (post {[ "job_link" := "http://job/1" ]}) (client_of "a@x.com")
           empty_world).
  apply unique_links_empty.
Defined.

Lemma delete_job_checks_no_owner_witness :
  ∃ sheet_msg w',
    delete_job 1 (client_of "b@x.com") world2
    = (Return (Redirect "applications",
               flash ("Job application deleted successfully ("
                      +:+ sheet_msg +:+ ")") (client_of "b@x.com")), w')
    ∧ rows (job_applications w') !! 1 = None.
Proof.
  destruct (delete_job_checks_no_owner 1 _ "b@x.com" (client_of "b@x.com")
              world2 eq_refl world2_rows_1)
    as (msg & w' & Hrun & Hrows & _).
  exists msg, w'. split; [exact Hrun|]. rewrite Hrows. apply lookup_delete_eq.
Defined.


Lemma dashboard_post_rejects_bad_months_witness :
  dashboard (post {[ "experience_months" := "a year" ]}) (client_of "a@x.com")
    with_profile
  = (Raise (ValueError "invalid literal for int() with base 10: 'a year'"),
     with_profile).
Proof.
  apply (dashboard_post_rejects_bad_months
           (post {[ "experience_months" := "a year" ]}) "a@x.com" "a year"
           (client_of "a@x.com") with_profile); reflexivity.
Defined.

Lemma applications_lists_the_users_jobs_witness :
  ∃ listed shown w',
    run (get_user_applications "a@x.com") world2 = Return listed
    ∧ applications (client_of "a@x.com") world2
      = (Return (Render "applications.html" (JobsArg shown),
                 client_of "a@x.com"), w')
    ∧ length shown = length listed.
Proof.
  destruct (applications_lists_the_users_jobs "a@x.com" (client_of "a@x.com")
              world2 eq_refl) as (listed & shown & w' & Hl & Hrun & Hf & _).
  - assert (map_Forall (λ _ r, is_Some (fromisoformat (created_at r)))
              (rows (job_applications world2))) as Hall
      by (apply (bool_decide_unpack _); vm_compute; exact I).
    intros i r Hi _. apply (Hall i r Hi).
  - exists listed, shown, w'. split; [exact Hl|]. split; [exact Hrun|].
    by eapply Forall2_length.
Defined.

Lemma register_view_then_login_view_witness :
  ∃ w1,
    register (post credentials) no_client
      (set_salts ["$2b$12$abcdefghijk"] empty_world)
    = (Return (Redirect "login", flash "Registration successful!" no_client),
       w1)
    ∧ login (post credentials) (flash "Registration successful!" no_client) w1
      = (Return (Redirect "dashboard",
           {| session := {[ "user" := "a@x.com" ]};
              flashes := ["Registration successful!";
                          "Login successful!"] |}), w1).
Proof.
  apply (register_view_then_login_view (post credentials) "a@x.com"
           "longpassword" "$2b$12$abcdefghijk" no_client
           (set_salts ["$2b$12$abcdefghijk"] empty_world)).
  - reflexivity.
  - reflexivity.
  - reflexivity.
  - apply unique_emails_empty.
  - reflexivity.
  - vm_compute. discriminate.
  - intros i r Hi. cbn [rows users set_salts empty_world empty_table] in Hi.
    by rewrite lookup_empty in Hi.
  - reflexivity.
  - vm_compute. reflexivity.
Defined.
